(** * waffle_utils.file.io : filesystem helpers

    A shallow embedding of [src/waffle_utils/file/io.py] and of the parts of
    the Python standard library it calls ([str.replace], [pathlib],
    [os.path.commonpath], [shutil.copy], [natsort.natsorted], [os.remove],
    [shutil.rmtree]).

    Python strings are [string]s, a [pathlib.Path] is a record holding its
    root and its components, the filesystem is a finite map from paths to
    nodes, and the functions of the module live in a state-and-exception
    monad over that map. *)

From Stdlib Require Import Ascii.
From stdpp Require Import gmap strings list sorting.

(** ** Python strings *)

Module Str.

(** [s.split("/")]: the pieces between separators, empty pieces kept. *)
Fixpoint split (s : string) : list string :=
  match s with
  | EmptyString => [EmptyString]
  | String c s' =>
      if Ascii.eqb c "/"%char then EmptyString :: split s'
      else match split s' with
           | [] => [String c EmptyString]
           | w :: ws => String c w :: ws
           end
  end.

(** [s[n:]] *)
Fixpoint drop (n : nat) (s : string) : string :=
  match n, s with
  | 0, _ => s
  | S _, EmptyString => EmptyString
  | S k, String _ s' => drop k s'
  end.

(** [s.startswith(p)] *)
Fixpoint startswith (p s : string) : bool :=
  match p, s with
  | EmptyString, _ => true
  | String _ _, EmptyString => false
  | String a p', String b s' => Ascii.eqb a b && startswith p' s'
  end.

(** [s.endswith(p)] *)
Definition endswith (p s : string) : bool :=
  (String.length p <=? String.length s)%nat
  && String.eqb (drop (String.length s - String.length p) s) p.

(** The scan of [s.replace(old, new)] for a non-empty [old]: left to right,
    every occurrence that does not overlap an earlier one is replaced.
    [skip] counts the characters of the current occurrence still to pass. *)
Fixpoint replace_scan (old new : string) (skip : nat) (s : string) : string :=
  match s with
  | EmptyString => EmptyString
  | String c s' =>
      match skip with
      | S k => replace_scan old new k s'
      | 0 =>
          if startswith old s
          then new +:+ replace_scan old new (String.length old - 1) s'
          else String c (replace_scan old new 0 s')
      end
  end.

(** With an empty [old], Python puts [new] before every character and at
    the end. *)
Fixpoint replace_empty (new s : string) : string :=
  match s with
  | EmptyString => new
  | String c s' => new +:+ String c (replace_empty new s')
  end.

(** [s.replace(old, new)] *)
Definition replace (s old new : string) : string :=
  match old with
  | EmptyString => replace_empty new s
  | String _ _ => replace_scan old new 0 s
  end.

(** [s.rfind(".")], with [None] for Python's [-1]. *)
Fixpoint rfind_dot (s : string) : option nat :=
  match s with
  | EmptyString => None
  | String c s' =>
      match rfind_dot s' with
      | Some i => Some (S i)
      | None => if Ascii.eqb c "."%char then Some 0 else None
      end
  end.

(** [old] occurs in [s] as a substring. *)
Definition occurs (old s : string) : Prop :=
  ∃ pre post, s = pre +:+ old +:+ post.

End Str.

(** ** pathlib (POSIX flavour) *)

(** A path is its root (empty, one slash, or two slashes) and its components. *)
Record Path := mkPath { root : string; tail : list string }.

Global Instance Path_eq_dec : EqDecision Path.
Proof. solve_decision. Defined.

Global Instance Path_countable : Countable Path.
Proof.
  refine (inj_countable' (λ p, (root p, tail p)) (λ rt, mkPath rt.1 rt.2) _).
  by intros [].
Defined.

(** The components of a string: pieces that are empty or [.] are dropped. *)
Definition components (s : string) : list string :=
  filter (λ c, c ≠ EmptyString ∧ c ≠ "."%string) (Str.split s).

(** [posixpath.splitroot]: one leading slash or three and more make the root
    [/], exactly two make the root [//]. *)
Definition splitroot (s : string) : string * string :=
  match s with
  | String "/"%char (String "/"%char (String "/"%char _)) =>
      ("/"%string, Str.drop 1 s)
  | String "/"%char (String "/"%char r) => ("//"%string, r)
  | String "/"%char r => ("/"%string, r)
  | _ => (EmptyString, s)
  end.

(** [Path(s)] *)
Definition PathOf (s : string) : Path :=
  let '(rt, rel) := splitroot s in mkPath rt (components rel).

(** [str(p)] *)
Definition str (p : Path) : string :=
  match root p, tail p with
  | EmptyString, [] => "."%string
  | rt, tl => rt +:+ String.concat "/" tl
  end.

(** [p.name] *)
Definition name (p : Path) : string := List.last (tail p) EmptyString.

(** [p.parent]: a path without components is its own parent. *)
Definition parent (p : Path) : Path := mkPath (root p) (removelast (tail p)).

(** [p / c] for a single component [c]. *)
Definition child (p : Path) (c : string) : Path := mkPath (root p) (tail p ++ [c]).

(** [p.suffix]: from the last dot of the name, unless that dot is the first
    or the last character. *)
Definition suffix (p : Path) : string :=
  let n := name p in
  match Str.rfind_dot n with
  | Some i =>
      if (0 <? i)%nat && (i <? String.length n - 1)%nat then Str.drop i n
      else EmptyString
  | None => EmptyString
  end.

(** ** The filesystem *)

(** A node is a regular file with its bytes, or a directory. *)
Inductive node :=
  | File (content : string)
  | Dir.

Global Instance node_eq_dec : EqDecision node.
Proof. solve_decision. Defined.

(** The filesystem maps a path to the node it names.  Paths are taken as
    written: there are no links, [..] is an ordinary component, and a path
    without components (the root, or the current directory) is a directory
    that is always there. *)
Abbreviation FS := (gmap Path node).

Definition node_at (fs : FS) (p : Path) : option node :=
  match tail p with
  | [] => Some Dir
  | _ :: _ => fs !! p
  end.

(** [p.exists()], [p.is_file()], [p.is_dir()] *)
Definition exists_ (fs : FS) (p : Path) : bool :=
  match node_at fs p with Some _ => true | None => false end.

Definition is_file (fs : FS) (p : Path) : bool :=
  match node_at fs p with Some (File _) => true | _ => false end.

Definition is_dir (fs : FS) (p : Path) : bool :=
  match node_at fs p with Some Dir => true | _ => false end.

(** [k] is [l] followed by at least one more element. *)
Fixpoint strictly_extends {A} `{EqDecision A} (l k : list A) : bool :=
  match l, k with
  | [], _ :: _ => true
  | x :: l', y :: k' => bool_decide (x = y) && strictly_extends l' k'
  | _, [] => false
  end.

(** [q] lies strictly below the directory [d]. *)
Definition below (d q : Path) : bool :=
  bool_decide (root q = root d) && strictly_extends (tail d) (tail q).

(** [d.glob("**/*")]: every entry below [d], files and directories alike.
    Python leaves the order to the operating system; here it is the order
    of the map. *)
Definition glob_all (fs : FS) (d : Path) : list Path :=
  filter (λ q, below d q) (map_to_list fs).*1.

(** [d.glob("**/*.ext")] for an [ext] without wildcard characters: the
    entries below [d] whose name ends with a dot and [ext]. *)
Definition glob_ext (fs : FS) (d : Path) (ext : string) : list Path :=
  filter (λ q, Str.endswith ("." +:+ ext) (name q)) (glob_all fs d).

(** ** Exceptions and the monad of the module *)

Inductive exn :=
  | FileNotFoundError (msg : string)
  | ValueError (msg : string)
  | FileExistsError (msg : string)
  | NotADirectoryError (msg : string)
  | IsADirectoryError (msg : string)
  | SameFileError (msg : string).

Inductive result (A : Type) :=
  | Ok (a : A)
  | Raise (e : exn).
Arguments Ok {A} a.
Arguments Raise {A} e.

(** A computation reads and changes the filesystem, and returns or raises;
    the filesystem it leaves behind is there in both cases. *)
Definition M (A : Type) : Type := FS → FS * result A.

Definition ret {A} (a : A) : M A := λ fs, (fs, Ok a).
Definition raise {A} (e : exn) : M A := λ fs, (fs, Raise e).
Definition bind {A B} (m : M A) (k : A → M B) : M B :=
  λ fs, match m fs with
        | (fs', Ok a) => k a fs'
        | (fs', Raise e) => (fs', Raise e)
        end.
Definition query {A} (f : FS → A) : M A := λ fs, (fs, Ok (f fs)).

Global Instance M_ret : MRet M := @ret.
Global Instance M_bind : MBind M := λ A B k m, bind m k.

(** [for x in l: body x] *)
Fixpoint for_each {A} (l : list A) (body : A → M unit) : M unit :=
  match l with
  | [] => ret tt
  | x :: l' => body x;; for_each l' body
  end.

(** ** Library calls that touch the filesystem *)

(** All the non-empty leading segments of a list, shortest first. *)
Fixpoint prefixes {A} (l : list A) : list (list A) :=
  match l with
  | [] => []
  | x :: l' => [x] :: map (cons x) (prefixes l')
  end.

(** [p] and the directories above it, topmost first. *)
Definition lineage (p : Path) : list Path :=
  map (mkPath (root p)) (prefixes (tail p)).

Definition ensure_dir (fs : FS) (q : Path) : FS :=
  match fs !! q with
  | None => <[q := Dir]> fs
  | Some _ => fs
  end.

(** [p.mkdir(parents=True, exist_ok=True)]: the missing directories of the
    lineage of [p] are made.  When a regular file is in the way nothing is
    made: [NotADirectoryError] for a file above [p], [FileExistsError] for a
    file at [p]. *)
Definition mkdir_parents (p : Path) : M unit :=
  λ fs,
    if existsb (is_file fs) (lineage (parent p))
    then (fs, Raise (NotADirectoryError (str p)))
    else if is_file fs p then (fs, Raise (FileExistsError (str p)))
    else (foldl ensure_dir fs (lineage p), Ok tt).

(** [shutil.copy(src, dst)]: into [dst / src.name] when [dst] is a
    directory, onto [dst] otherwise; the target is overwritten. *)
Definition shutil_copy (src dst : Path) : M unit :=
  λ fs,
    let target := if is_dir fs dst then child dst (name src) else dst in
    match node_at fs src with
    | None => (fs, Raise (FileNotFoundError (str src)))
    | Some Dir => (fs, Raise (IsADirectoryError (str src)))
    | Some (File bytes) =>
        if bool_decide (src = target) then (fs, Raise (SameFileError (str src)))
        else if is_dir fs target then (fs, Raise (IsADirectoryError (str target)))
        else if is_file fs (parent target) then
          (fs, Raise (NotADirectoryError (str target)))
        else if negb (is_dir fs (parent target)) then
          (fs, Raise (FileNotFoundError (str target)))
        else (<[target := File bytes]> fs, Ok tt)
    end.

(** ** os.path.commonpath *)

(** Python compares lists of strings lexicographically, strings by code
    point. *)
Fixpoint list_compare (a b : list string) : comparison :=
  match a, b with
  | [], [] => Eq
  | [], _ :: _ => Lt
  | _ :: _, [] => Gt
  | x :: a', y :: b' =>
      match String.compare x y with
      | Eq => list_compare a' b'
      | c => c
      end
  end.

Definition list_lt (a b : list string) : bool :=
  match list_compare a b with Lt => true | _ => false end.

Definition list_le (a b : list string) : Prop := list_compare a b ≠ Gt.

(** [min(x :: l)] and [max(x :: l)]: the first of the least, respectively
    greatest, elements. *)
Definition minimum (x : list string) (l : list (list string)) : list string :=
  foldl (λ m y, if list_lt y m then y else m) x l.

Definition maximum (x : list string) (l : list (list string)) : list string :=
  foldl (λ m y, if list_lt m y then y else m) x l.

(** The loop of [commonpath] over [s1], with [s2] read at the same index. *)
Fixpoint common_prefix (s1 s2 : list string) : list string :=
  match s1, s2 with
  | c :: s1', d :: s2' => if bool_decide (c = d) then c :: common_prefix s1' s2' else []
  | _, _ => []
  end.

Definition isabs (s : string) : bool := Str.startswith "/" s.

(** The components [commonpath] returns for the sequence [p :: ps]: what
    the least and the greatest of the split paths have in common. *)
Definition common_components (p : string) (ps : list string) : list string :=
  let s := components p in
  let ss := components <$> ps in
  common_prefix (minimum s ss) (maximum s ss).

(** [os.path.commonpath(paths)] *)
Definition commonpath (paths : list string) : result string :=
  match paths with
  | [] => Raise (ValueError "commonpath() arg is an empty sequence")
  | p :: ps =>
      if forallb (λ q, eqb (isabs q) (isabs p)) ps then
        let prefix := if isabs p then "/"%string else EmptyString in
        Ok (prefix +:+ String.concat "/" (common_components p ps))
      else Raise (ValueError "Can't mix absolute and relative paths")
  end.

(** ** natsort.natsorted *)

(** The key of a string: its runs of digits as numbers and the text between
    them, starting with a text. *)
Inductive chunk :=
  | Txt (s : string)
  | Num (n : N).

Definition finish (c : chunk) : chunk :=
  match c with
  | Txt t => Txt (String.rev t)
  | Num n => Num n
  end.

Fixpoint natsort_scan (cur : chunk) (s : string) : list chunk :=
  match s with
  | EmptyString => [finish cur]
  | String c s' =>
      match Ascii.is_nat c, cur with
      | Some d, Num n => natsort_scan (Num (10 * n + N.of_nat d)) s'
      | Some d, Txt _ => finish cur :: natsort_scan (Num (N.of_nat d)) s'
      | None, Txt t => natsort_scan (Txt (String c t)) s'
      | None, Num _ => cur :: natsort_scan (Txt (String c EmptyString)) s'
      end
  end.

Definition natsort_key (s : string) : list chunk := natsort_scan (Txt EmptyString) s.

Definition chunk_lt (a b : chunk) : bool :=
  match a, b with
  | Txt s, Txt t => String.ltb s t
  | Num m, Num n => (m <? n)%N
  | Txt _, Num _ => true
  | Num _, Txt _ => false
  end.

Fixpoint key_lt (a b : list chunk) : bool :=
  match a, b with
  | [], _ :: _ => true
  | _, [] => false
  | x :: a', y :: b' =>
      if chunk_lt x y then true
      else if chunk_lt y x then false
      else key_lt a' b'
  end.

(** [natsorted(l)]: a stable sort by natural key; a path is sorted by its
    text. *)
Fixpoint natsort_insert (p : Path) (l : list Path) : list Path :=
  match l with
  | [] => [p]
  | q :: l' =>
      if key_lt (natsort_key (str q)) (natsort_key (str p))
      then q :: natsort_insert p l'
      else p :: l
  end.

Definition natsorted (l : list Path) : list Path := foldr natsort_insert [] l.

(** [p] does not come after [q] in natural order. *)
Definition natural_le (p q : Path) : Prop :=
  key_lt (natsort_key (str q)) (natsort_key (str p)) = false.

(** ** The module: [waffle_utils/file/io.py] *)

(** [make_directory(src)] *)
Definition make_directory (src : Path) : M unit := mkdir_parents src.

(** [get_files_list(src, ext=None)] *)
Definition get_files_list (src : string) (ext : option string) : M (list Path) :=
  let src := PathOf src in
  d ← query (λ fs, is_dir fs src);
  if negb d then raise (ValueError (str src +:+ " is not directory"))
  else
    match ext with
    | None => l ← query (λ fs, glob_all fs src); mret (natsorted l)
    | Some ext => query (λ fs, glob_ext fs src ext)
    end.

(** What [get_extension] returns: a string, or a list of strings. *)
Inductive extension :=
  | ExtStr (s : string)
  | ExtList (l : list string).

(** [get_extension(fp)] *)
Definition get_extension (fp : string) : M extension :=
  let fp := PathOf fp in
  d ← query (λ fs, is_dir fs fp);
  if (d : bool) then
    exts ← query (λ fs,
      (list_to_set ((λ p, Str.drop 1 (suffix p)) <$>
                      filter (λ p, is_file fs p) (glob_all fs fp)) : gset string));
    if bool_decide (size exts = 1) then mret (ExtStr (hd EmptyString (elements exts)))
    else mret (ExtList (elements exts))
  else
    f ← query (λ fs, is_file fs fp);
    if (f : bool) then mret (ExtStr (Str.drop 1 (suffix fp)))
    else raise (ValueError (str fp +:+ " is neither a file nor a directory")).

(** The [src] argument of [copy_files_to_directory]: a list of paths, a
    single [str] or [Path] given by its text, or a value of another type
    given by the text it prints as. *)
Inductive source :=
  | SrcList (l : list string)
  | SrcPath (s : string)
  | SrcOther (repr : string).

(** The first part of [copy_files_to_directory]: [src_prefix] as the text
    that the loop searches for, [src_list], and [src] as it is printed in
    the error message; [src_list] stays [None] when no branch sets it.
    The listing of a directory is taken here, once, before the loop runs
    (Python produces it while the loop runs). *)
Definition resolve_source (src : source) : M (option (string * list Path) * string) :=
  match src with
  | SrcList l =>
      match commonpath l with
      | Raise e => raise e
      | Ok src_prefix => mret (Some (src_prefix, PathOf <$> l), EmptyString)
      end
  | SrcPath s =>
      let src := PathOf s in
      f ← query (λ fs, is_file fs src);
      if (f : bool) then mret (Some (str (parent src), [src]), str src)
      else
        d ← query (λ fs, is_dir fs src);
        if (d : bool) then
          l ← query (λ fs, glob_all fs src);
          mret (Some (str src, l), str src)
        else mret (None, str src)
  | SrcOther repr => mret (None, repr)
  end.

(** The path the loop of [copy_files_to_directory] writes [src_file] to. *)
Definition dst_file_of (src_prefix : string) (dst src_file : Path) : Path :=
  PathOf (Str.replace (str src_file) src_prefix (str dst)).

(** The body of the loop. *)
Definition copy_one (src_prefix : string) (dst src_file : Path) : M unit :=
  let dst_file := dst_file_of src_prefix dst src_file in
  make_directory (parent dst_file);;
  f ← query (λ fs, is_file fs src_file);
  if (f : bool) then shutil_copy src_file dst_file else mret tt.

(** The checks on [dst] between the resolution of [src] and the loop. *)
Definition check_destination (dst : Path) (create_directory : bool) : M unit :=
  (if bool_decide (suffix dst ≠ EmptyString) then
     raise (ValueError ("dst should be directory format. but got " +:+ suffix dst))
   else if create_directory then make_directory dst
   else mret tt);;
  e ← query (λ fs, exists_ fs dst);
  if negb e then
    raise (FileNotFoundError (str dst +:+
      " directory does not exist. please set 'create_directory' argument to be True to make directory."))
  else mret tt.

(** [copy_files_to_directory(src, dst, create_directory=False)] *)
Definition copy_files_to_directory
    (src : source) (dst : string) (create_directory : bool) : M unit :=
  '(resolved, src) ← resolve_source src;
  match resolved with
  | None => raise (FileNotFoundError ("unknown source " +:+ src))
  | Some (src_prefix, src_list) =>
      let dst := PathOf dst in
      check_destination dst create_directory;;
      for_each src_list (copy_one src_prefix dst)
  end.

(** ** The rest of the module *)

(** [os.remove(p)]: a regular file is unlinked; a directory, a missing path
    and a path through a regular file are refused (the errors of Linux). *)
Definition os_remove (p : Path) : M unit :=
  λ fs,
    if existsb (is_file fs) (lineage (parent p))
    then (fs, Raise (NotADirectoryError (str p)))
    else match node_at fs p with
         | None => (fs, Raise (FileNotFoundError (str p)))
         | Some Dir => (fs, Raise (IsADirectoryError (str p)))
         | Some (File _) => (delete p fs, Ok tt)
         end.

(** How [shutil.rmtree] ends: it returns, raises one of the exceptions of
    [exn], or raises the plain [OSError] of [os.rmdir] on a path without
    components. *)
Inductive rmtree_end :=
  | Removed
  | Failed (e : exn)
  | FailedOSError (msg : string).

(** [shutil.rmtree(str(p))]: everything below the directory [p] is removed,
    then [p] itself; [os.rmdir] refuses a path without components after its
    content is gone. *)
Definition rmtree (p : Path) (fs : FS) : FS * rmtree_end :=
  if existsb (is_file fs) (lineage (parent p))
  then (fs, Failed (NotADirectoryError (str p)))
  else match node_at fs p with
       | None => (fs, Failed (FileNotFoundError (str p)))
       | Some (File _) => (fs, Failed (NotADirectoryError (str p)))
       | Some Dir =>
           let emptied := filter (λ kv, below p kv.1 = false) fs in
           match tail p with
           | [] => (emptied, FailedOSError (str p))
           | _ :: _ => (delete p emptied, Removed)
           end
       end.

(** [copy_file(src, dst, create_directory=False)], for a [src] given as a
    path. *)
Definition copy_file (src : Path) (dst : string) (create_directory : bool) : M unit :=
  let dst := PathOf dst in
  (if create_directory then make_directory (parent dst) else mret tt);;
  shutil_copy src dst.

(** [remove_file(src)], for a [src] given as a path. *)
Definition remove_file (src : Path) : M unit := os_remove src.

(** [remove_directory(src)] *)
Definition remove_directory (src : Path) (fs : FS) : FS * rmtree_end := rmtree src fs.

(** ** Well-formed filesystems and paths *)

(** Every entry has components, and the directories above it are there. *)
Definition well_formed (fs : FS) : Prop :=
  ∀ q, is_Some (fs !! q) →
    tail q ≠ [] ∧ ∀ a, a ∈ lineage (parent q) → is_dir fs a = true.

Definition well_formed_check (fs : FS) : bool :=
  forallb (λ q, negb (bool_decide (tail q = []))
                && forallb (is_dir fs) (lineage (parent q)))
          (map_to_list fs).*1.

(** A component as [pathlib] makes them: not empty, not [.], no separator. *)
Definition clean_component (c : string) : Prop :=
  Str.split c = [c] ∧ c ≠ EmptyString ∧ c ≠ "."%string.

Global Instance clean_component_dec c : Decision (clean_component c).
Proof. unfold clean_component. apply _. Defined.

(** A path as [Path(s)] makes them. *)
Definition clean_path (p : Path) : Prop :=
  (root p = EmptyString ∨ root p = "/"%string ∨ root p = "//"%string)
  ∧ Forall clean_component (tail p).

Global Instance clean_path_dec p : Decision (clean_path p).
Proof. unfold clean_path. apply _. Defined.

(** [old in s] *)
Fixpoint contains (old s : string) : bool :=
  Str.startswith old s
  || match s with
     | EmptyString => false
     | String _ s' => contains old s'
     end.

(** The components of [p] after those of [d], for a [p] below [d]. *)
Definition relative_to (d p : Path) : list string :=
  drop (length (tail d)) (tail p).

(** [p], which lies below [d], moved below [e]. *)
Definition rebase (d e p : Path) : Path :=
  mkPath (root e) (tail e ++ relative_to d p).

(** Neither directory is the other one or lies below it. *)
Definition unrelated (d e : Path) : Prop :=
  d ≠ e ∧ below d e = false ∧ below e d = false.

Global Instance unrelated_dec d e : Decision (unrelated d e).
Proof. unfold unrelated. apply _. Defined.

(** Every directory of [fs] is still a directory in [fs'] and every regular
    file still a regular file. *)
Definition kinds_kept (fs fs' : gmap Path node) : Prop :=
  ∀ q, (is_dir fs q = true → is_dir fs' q = true)
       ∧ (is_file fs q = true → is_file fs' q = true).

(** An entry of the source that lies below [d] and that the loop sends to
    its place below [e]. *)
Definition tree_entry (fs0 : gmap Path node) (d e : Path) (pre : string)
    (p : Path) : Prop :=
  below d p = true ∧ is_Some (fs0 !! p) ∧ dst_file_of pre e p = rebase d e p.

(** The state of a copy of entries below [d] into the empty directory [e]
    once the entries [done] are through: outside [e] nothing has changed;
    below [e] there are the bytes of the files among [done], at their new
    places, and the directories on the way to the new place of an entry. *)
Definition tree_copied (fs0 : gmap Path node) (d e : Path) (done : list Path)
    (cur : gmap Path node) : Prop :=
  (∀ q, below e q = false → cur !! q = fs0 !! q)
  ∧ (∀ q n, below e q = true → cur !! q = Some n →
       ∃ p, p ∈ done
            ∧ ((q = rebase d e p ∧ ∃ b, fs0 !! p = Some (File b) ∧ n = File b)
               ∨ (n = Dir ∧ below q (rebase d e p) = true)))
  ∧ (∀ p b, p ∈ done → fs0 !! p = Some (File b) →
       cur !! rebase d e p = Some (File b))
  ∧ (∀ p q, p ∈ done → below e q = true → below q (rebase d e p) = true →
       cur !! q = Some Dir).

(** ** Sample filesystems *)

Module Examples.

(** A directory [D] with a file, a subdirectory holding a file, and an empty
    subdirectory; a directory [E] to copy into; and a directory whose name
    has a suffix. *)
Definition tree : gmap Path node :=
  list_to_map
    [ (PathOf "D", Dir);
      (PathOf "D/a.txt", File "A");
      (PathOf "D/sub", Dir);
      (PathOf "D/sub/b.txt", File "B");
      (PathOf "D/empty", Dir);
      (PathOf "E", Dir);
      (PathOf "out.d", Dir) ].

(** A directory [a] holding a file [a.txt], and [E]. *)
Definition echo : gmap Path node :=
  list_to_map
    [ (PathOf "a", Dir);
      (PathOf "a/a.txt", File "A");
      (PathOf "E", Dir) ].

(** A directory [pics] holding two [png] images and one [jpg] image. *)
Definition pics : gmap Path node :=
  list_to_map
    [ (PathOf "pics", Dir);
      (PathOf "pics/img2.png", File "2");
      (PathOf "pics/img10.png", File "10");
      (PathOf "pics/photo.jpg", File "J") ].

End Examples.

(** Every directory of [fs] is still a directory in [fs']. *)
Definition dirs_kept (fs fs' : gmap Path node) : Prop :=
  ∀ q, is_dir fs q = true → is_dir fs' q = true.

(** * Properties *)

(** ** Splitting and joining paths *)

Section paths.

Lemma app_String a s r : String a s +:+ r = String a (s +:+ r).
Proof. reflexivity. Qed.

Lemma app_empty r : EmptyString +:+ r = r.
Proof. reflexivity. Qed.

Lemma split_nonempty s : Str.split s ≠ [].
Proof.
  destruct s as [|c s]; simpl; [done|].
  destruct (Ascii.eqb c "/"); [done|]. by destruct (Str.split s).
Qed.

(** A piece of a split holds no separator. *)
Lemma split_piece s c : c ∈ Str.split s → Str.split c = [c].
Proof.
  revert c. induction s as [|a s IH]; intros c; simpl.
  { by intros ->%list_elem_of_singleton. }
  destruct (Ascii.eqb a "/") eqn:Ea.
  - intros [->|Hc]%elem_of_cons; [done|auto].
  - destruct (Str.split s) as [|w ws] eqn:Es; [by destruct (split_nonempty s)|].
    intros [->|Hc]%elem_of_cons.
    + simpl. rewrite Ea. rewrite (IH w); [done|]. apply elem_of_cons. by left.
    + apply IH. apply elem_of_cons. by right.
Qed.

Lemma split_app_slash c r :
  Str.split c = [c] → Str.split (c +:+ String "/" r) = c :: Str.split r.
Proof.
  induction c as [|a c IH]; [done|].
  rewrite app_String. simpl.
  destruct (Ascii.eqb a "/"); [done|].
  destruct (Str.split c) as [|w ws] eqn:Ec; [by destruct (split_nonempty c)|].
  intros [= -> ->]. by rewrite IH.
Qed.

Lemma split_concat cs :
  cs ≠ [] → (∀ c, c ∈ cs → Str.split c = [c]) →
  Str.split (String.concat "/" cs) = cs.
Proof.
  induction cs as [|c cs IH]; [done|]. intros _ Hall.
  destruct cs as [|c' cs].
  - simpl. apply Hall. apply elem_of_cons. by left.
  - change (String.concat "/" (c :: c' :: cs))
      with (c +:+ String "/" (String.concat "/" (c' :: cs))).
    rewrite split_app_slash by (apply Hall; apply elem_of_cons; by left).
    f_equal. apply IH; [done|]. intros c0 Hc0. apply Hall. apply elem_of_cons. by right.
Qed.

Lemma elem_of_components s c :
  c ∈ components s ↔ c ∈ Str.split s ∧ c ≠ EmptyString ∧ c ≠ "."%string.
Proof. unfold components. rewrite list_elem_of_filter. tauto. Qed.

Lemma components_concat cs :
  (∀ c, c ∈ cs → Str.split c = [c] ∧ c ≠ EmptyString ∧ c ≠ "."%string) →
  components (String.concat "/" cs) = cs.
Proof.
  intros Hall. destruct (decide (cs = [])) as [->|Hne]; [done|].
  unfold components.
  rewrite split_concat; [|done|intros c Hc; by destruct (Hall c Hc)].
  clear Hne. induction cs as [|c cs IH]; [done|].
  rewrite filter_cons_True.
  - f_equal. apply IH. intros c0 Hc0. apply Hall. apply elem_of_cons. by right.
  - apply Hall. apply elem_of_cons. by left.
Qed.

Lemma components_slash s : components (String "/" s) = components s.
Proof. reflexivity. Qed.

(** The components of [Path(s)] are those [commonpath] splits [s] into. *)
Lemma tail_PathOf s : tail (PathOf s) = components s.
Proof.
  unfold PathOf.
  destruct s as [|a s]; [done|].
  destruct (Ascii.ascii_dec a "/") as [->|Ha].
  - destruct s as [|b s]; [done|].
    destruct (Ascii.ascii_dec b "/") as [->|Hb].
    + destruct s as [|c s]; [done|].
      destruct (Ascii.ascii_dec c "/") as [->|Hc]; [done|].
      replace (splitroot (String "/" (String "/" (String c s))))
        with ("//"%string, String c s); [done|].
      simpl. destruct c as [[] [] [] [] [] [] [] []]; try done.
    + replace (splitroot (String "/" (String b s))) with ("/"%string, String b s); [done|].
      simpl. destruct b as [[] [] [] [] [] [] [] []]; try done.
  - replace (splitroot (String a s)) with (EmptyString, String a s); [done|].
    simpl. destruct a as [[] [] [] [] [] [] [] []]; try done.
Qed.

End paths.

(** ** The order of Python on lists of strings *)

Section lexicographic.

Lemma str_compare_refl s : String.compare s s = Eq.
Proof.
  pose proof (String.compare_antisym s s) as H.
  destruct (String.compare s s); simpl in H; congruence.
Qed.

Lemma str_compare_le x y : String.compare x y ≠ Gt ↔ String.le x y.
Proof.
  unfold String.le, String.leb. destruct (String.compare x y); simpl; split; intros; try done.
Qed.

Lemma str_compare_lt_trans x y z :
  String.compare x y = Lt → String.compare y z = Lt → String.compare x z = Lt.
Proof.
  intros Hxy Hyz.
  assert (String.le x z) as Hxz.
  { transitivity y; apply str_compare_le; congruence. }
  apply str_compare_le in Hxz.
  destruct (String.compare x z) eqn:E; [|done|done].
  apply String.compare_eq_iff in E. subst z.
  rewrite String.compare_antisym, Hxy in Hyz. discriminate.
Qed.

Lemma list_compare_refl a : list_compare a a = Eq.
Proof. induction a as [|x a IH]; simpl; [done|]. by rewrite str_compare_refl. Qed.

Lemma list_compare_eq a b : list_compare a b = Eq → a = b.
Proof.
  revert b. induction a as [|x a IH]; intros [|y b]; simpl; try done.
  destruct (String.compare x y) eqn:E; try done.
  intros H. apply String.compare_eq_iff in E. f_equal; auto.
Qed.

Lemma list_compare_antisym a b : list_compare b a = CompOpp (list_compare a b).
Proof.
  revert b. induction a as [|x a IH]; intros [|y b]; simpl; try done.
  rewrite (String.compare_antisym y x).
  destruct (String.compare x y); simpl; auto.
Qed.

Lemma list_lt_le_trans a b c :
  list_compare a b = Lt → list_le b c → list_compare a c = Lt.
Proof.
  unfold list_le. revert b c.
  induction a as [|x a IH]; intros [|y b] [|z c]; simpl; try done.
  destruct (String.compare x y) eqn:Exy; try done;
    destruct (String.compare y z) eqn:Eyz; try done; intros Hab Hbc.
  - apply String.compare_eq_iff in Exy, Eyz. subst. rewrite str_compare_refl. eauto.
  - apply String.compare_eq_iff in Exy. subst. by rewrite Eyz.
  - apply String.compare_eq_iff in Eyz. subst. by rewrite Exy.
  - by rewrite (str_compare_lt_trans x y z).
Qed.

Global Instance list_le_refl : Reflexive list_le.
Proof. intros a. unfold list_le. by rewrite list_compare_refl. Qed.

Global Instance list_le_trans : Transitive list_le.
Proof.
  intros a b c Hab Hbc.
  destruct (list_compare a b) eqn:E.
  - apply list_compare_eq in E. by subst.
  - unfold list_le. by rewrite (list_lt_le_trans a b c).
  - done.
Qed.

Lemma list_lt_le a b : list_lt a b = true → list_le a b.
Proof. unfold list_lt, list_le. by destruct (list_compare a b). Qed.

Lemma list_not_lt_le a b : list_lt a b = false → list_le b a.
Proof.
  unfold list_lt, list_le. rewrite (list_compare_antisym a b).
  by destruct (list_compare a b).
Qed.

Lemma minimum_lower s ss :
  list_le (minimum s ss) s ∧ ∀ x, x ∈ ss → list_le (minimum s ss) x.
Proof.
  unfold minimum. revert s.
  induction ss as [|y ss IH]; intros s; simpl.
  { split; [reflexivity|]. intros x Hx. by apply elem_of_nil in Hx. }
  destruct (IH (if list_lt y s then y else s)) as [H1 H2].
  destruct (list_lt y s) eqn:E.
  - split.
    + etransitivity; [exact H1|]. by apply list_lt_le.
    + intros x [->|Hx]%elem_of_cons; auto.
  - split; [done|].
    intros x [->|Hx]%elem_of_cons; auto.
    etransitivity; [exact H1|]. by apply list_not_lt_le.
Qed.

Lemma maximum_upper s ss :
  list_le s (maximum s ss) ∧ ∀ x, x ∈ ss → list_le x (maximum s ss).
Proof.
  unfold maximum. revert s.
  induction ss as [|y ss IH]; intros s; simpl.
  { split; [reflexivity|]. intros x Hx. by apply elem_of_nil in Hx. }
  destruct (IH (if list_lt s y then y else s)) as [H1 H2].
  destruct (list_lt s y) eqn:E.
  - split.
    + etransitivity; [|exact H1]. by apply list_lt_le.
    + intros x [->|Hx]%elem_of_cons; auto.
  - split; [done|].
    intros x [->|Hx]%elem_of_cons; auto.
    etransitivity; [|exact H1]. by apply list_not_lt_le.
Qed.

Lemma minimum_elem s ss : minimum s ss ∈ s :: ss.
Proof.
  unfold minimum. revert s. induction ss as [|y ss IH]; intros s; simpl.
  - set_solver.
  - specialize (IH (if list_lt y s then y else s)).
    apply elem_of_cons in IH as [IH|IH].
    + rewrite IH. destruct (list_lt y s); set_solver.
    + set_solver.
Qed.

Lemma maximum_elem s ss : maximum s ss ∈ s :: ss.
Proof.
  unfold maximum. revert s. induction ss as [|y ss IH]; intros s; simpl.
  - set_solver.
  - specialize (IH (if list_lt s y then y else s)).
    apply elem_of_cons in IH as [IH|IH].
    + rewrite IH. destruct (list_lt s y); set_solver.
    + set_solver.
Qed.

Lemma common_prefix_l a b : common_prefix a b `prefix_of` a.
Proof.
  revert b. induction a as [|x a IH]; intros [|y b]; simpl; try apply prefix_nil.
  case_bool_decide; [|apply prefix_nil]. by apply prefix_cons.
Qed.

Lemma common_prefix_r a b : common_prefix a b `prefix_of` b.
Proof.
  revert b. induction a as [|x a IH]; intros [|y b]; simpl; try apply prefix_nil.
  case_bool_decide; [|apply prefix_nil]. subst. by apply prefix_cons.
Qed.

Lemma common_prefix_greatest a b c :
  c `prefix_of` a → c `prefix_of` b → c `prefix_of` common_prefix a b.
Proof.
  revert a b. induction c as [|z c IH]; intros a b Ha Hb; [apply prefix_nil|].
  destruct a as [|x a]; [by apply prefix_nil_inv in Ha|].
  destruct b as [|y b]; [by apply prefix_nil_inv in Hb|].
  pose proof (prefix_cons_inv_1 _ _ _ _ Ha). pose proof (prefix_cons_inv_1 _ _ _ _ Hb).
  apply prefix_cons_inv_2 in Ha, Hb. subst. simpl.
  rewrite bool_decide_true by done. apply prefix_cons. auto.
Qed.

Lemma common_prefix_between a b x :
  list_le a x → list_le x b → common_prefix a b `prefix_of` x.
Proof.
  unfold list_le. revert b x.
  induction a as [|x0 a IH]; intros [|y b] [|x1 x]; simpl;
    try (intros; apply prefix_nil); try done.
  case_bool_decide as Hxy; [|intros; apply prefix_nil]. subst y.
  pose proof (String.compare_antisym x0 x1) as Hanti.
  destruct (String.compare x0 x1) eqn:E01; try done;
    destruct (String.compare x1 x0) eqn:E10; try done.
  apply String.compare_eq_iff in E01. subst x1.
  intros Ha Hb. apply prefix_cons. auto.
Qed.

End lexicographic.

(** ** Unfolding the monad *)

Ltac io_unfold := unfold mbind, M_bind, bind, mret, M_ret, ret, query, raise in *.

Lemma resolve_source_fs src fs : (resolve_source src fs).1 = fs.
Proof.
  destruct src as [l|s|r]; simpl.
  - destruct (commonpath l); reflexivity.
  - io_unfold. destruct (is_file fs (PathOf s)); [reflexivity|].
    destruct (is_dir fs (PathOf s)); reflexivity.
  - reflexivity.
Qed.

Lemma copy_unfold src dst c fs :
  copy_files_to_directory src dst c fs =
  match (resolve_source src fs).2 with
  | Raise e => (fs, Raise e)
  | Ok (None, txt) => (fs, Raise (FileNotFoundError ("unknown source " +:+ txt)))
  | Ok (Some (src_prefix, src_list), _) =>
      (check_destination (PathOf dst) c;;
       for_each src_list (copy_one src_prefix (PathOf dst))) fs
  end.
Proof.
  unfold copy_files_to_directory.
  pose proof (resolve_source_fs src fs) as Hfs.
  unfold mbind at 1, M_bind at 1, bind at 1.
  destruct (resolve_source src fs) as [fs' [[[[pre sl]|] txt]|e]]; simpl in *; subst; reflexivity.
Qed.

Section unfolding.
Implicit Types (fs : gmap Path node).

Lemma copy_unresolved_path fs s dst create :
  is_file fs (PathOf s) = false → is_dir fs (PathOf s) = false →
  copy_files_to_directory (SrcPath s) dst create fs =
    (fs, Raise (FileNotFoundError ("unknown source " +:+ str (PathOf s)))).
Proof.
  intros Hf Hd. rewrite copy_unfold. simpl. io_unfold. by rewrite Hf, Hd.
Qed.

Lemma resolve_source_dir fs s :
  is_dir fs (PathOf s) = true →
  resolve_source (SrcPath s) fs =
    (fs, Ok (Some (str (PathOf s), glob_all fs (PathOf s)), str (PathOf s))).
Proof.
  intros Hd.
  assert (is_file fs (PathOf s) = false) as Hf.
  { unfold is_dir, is_file in *. by destruct (node_at fs (PathOf s)) as [[]|]. }
  simpl. io_unfold. by rewrite Hf, Hd.
Qed.

Lemma copy_resolved fs src dst create src_prefix src_list txt :
  resolve_source src fs = (fs, Ok (Some (src_prefix, src_list), txt)) →
  copy_files_to_directory src dst create fs =
    (check_destination (PathOf dst) create;;
     for_each src_list (copy_one src_prefix (PathOf dst))) fs.
Proof. intros Hr. rewrite copy_unfold. by rewrite Hr. Qed.

Lemma bind_raise {A B} (m : M A) (k : A → M B) fs fs' e :
  m fs = (fs', Raise e) → (m ≫= k) fs = (fs', Raise e).
Proof. intros H. io_unfold. by rewrite H. Qed.

Lemma bind_ok {A B} (m : M A) (k : A → M B) fs fs' a :
  m fs = (fs', Ok a) → (m ≫= k) fs = k a fs'.
Proof. intros H. io_unfold. by rewrite H. Qed.

End unfolding.

(** ** The filesystem primitives *)

Section filesystem.
Implicit Types (fs : gmap Path node) (p q : Path).

Lemma elem_of_prefixes {A} (l k : list A) :
  k ∈ prefixes l ↔ k ≠ [] ∧ k `prefix_of` l.
Proof.
  revert k. induction l as [|x l IH]; intros k; simpl.
  - split; [by intros ?%elem_of_nil|]. intros [Hk Hp]. by apply prefix_nil_inv in Hp.
  - rewrite elem_of_cons, list_elem_of_fmap. split.
    + intros [->|(k' & -> & Hk')]; [split; [done|]; by apply prefix_cons, prefix_nil|].
      apply IH in Hk' as [? ?]. split; [done|]. by apply prefix_cons.
    + intros [Hk Hp]. destruct k as [|y k]; [done|].
      pose proof (prefix_cons_inv_1 _ _ _ _ Hp) as ->.
      apply prefix_cons_inv_2 in Hp.
      destruct k as [|z k]; [by left|]. right. exists (z :: k). split; [done|].
      apply IH. done.
Qed.

Lemma prefixes_snoc {A} (l : list A) x :
  prefixes (l ++ [x]) = prefixes l ++ [l ++ [x]].
Proof.
  induction l as [|y l IH]; simpl; [done|].
  rewrite IH, fmap_app. done.
Qed.

Lemma lineage_nonempty p q : q ∈ lineage p → tail q ≠ [].
Proof.
  unfold lineage. intros (k & -> & Hk)%list_elem_of_fmap. simpl.
  by apply elem_of_prefixes in Hk as [? _].
Qed.

Lemma lineage_parent p :
  tail p ≠ [] → lineage p = lineage (parent p) ++ [p].
Proof.
  intros Hp. unfold lineage, parent. simpl. destruct p as [r t]. simpl in *.
  destruct (exists_last Hp) as (t' & x & ->).
  rewrite removelast_last, prefixes_snoc, fmap_app. done.
Qed.

Lemma lineage_self p : tail p ≠ [] → p ∈ lineage p.
Proof. intros Hp. rewrite lineage_parent by done. set_solver. Qed.

Lemma node_at_lookup fs p : tail p ≠ [] → node_at fs p = fs !! p.
Proof. unfold node_at. by destruct (tail p). Qed.

Lemma node_at_weaken fs fs' p n :
  fs ⊆ fs' → node_at fs p = Some n → node_at fs' p = Some n.
Proof.
  unfold node_at. destruct (tail p); [done|]. intros Hsub Hp.
  by eapply lookup_weaken.
Qed.

Lemma is_dir_weaken fs fs' p : fs ⊆ fs' → is_dir fs p = true → is_dir fs' p = true.
Proof.
  unfold is_dir. intros Hsub. destruct (node_at fs p) as [[]|] eqn:E; try done.
  by rewrite (node_at_weaken _ _ _ _ Hsub E).
Qed.

Lemma is_file_weaken fs fs' p : fs ⊆ fs' → is_file fs p = true → is_file fs' p = true.
Proof.
  unfold is_file. intros Hsub. destruct (node_at fs p) as [[]|] eqn:E; try done.
  by rewrite (node_at_weaken _ _ _ _ Hsub E).
Qed.

Lemma ensure_dir_subseteq fs q : fs ⊆ ensure_dir fs q.
Proof.
  unfold ensure_dir. destruct (fs !! q) eqn:E; [done|]. by apply insert_subseteq.
Qed.

Lemma ensure_dirs_subseteq fs l : fs ⊆ foldl ensure_dir fs l.
Proof.
  revert fs. induction l as [|q l IH]; intros fs; simpl; [done|].
  etransitivity; [apply ensure_dir_subseteq|apply IH].
Qed.

Lemma ensure_dirs_lookup fs l q :
  foldl ensure_dir fs l !! q =
  match fs !! q with
  | Some n => Some n
  | None => if bool_decide (q ∈ l) then Some Dir else None
  end.
Proof.
  revert fs. induction l as [|q' l IH]; intros fs; simpl.
  { by destruct (fs !! q). }
  rewrite IH. unfold ensure_dir.
  destruct (decide (q' = q)) as [->|Hne].
  - destruct (fs !! q) eqn:E; [by rewrite E|].
    rewrite lookup_insert_eq, bool_decide_true; [done|]. apply elem_of_cons. by left.
  - assert (bool_decide (q ∈ q' :: l) = bool_decide (q ∈ l)) as ->.
    { apply bool_decide_ext. rewrite elem_of_cons.
      split; [intros [?|?]; [by subst|done]|by right]. }
    destruct (fs !! q') eqn:E'; [done|]. by rewrite lookup_insert_ne.
Qed.

Lemma ensure_dirs_present fs l :
  (∀ q, q ∈ l → is_Some (fs !! q)) → foldl ensure_dir fs l = fs.
Proof.
  intros H. apply map_eq. intros q. rewrite ensure_dirs_lookup.
  destruct (fs !! q) eqn:E; [done|]. case_bool_decide as Hq; [|done].
  apply H in Hq. rewrite E in Hq. by destruct Hq.
Qed.

(** [mkdir_parents] raises without a change, or makes the lineage. *)
Lemma mkdir_parents_cases p fs :
  (∃ e, mkdir_parents p fs = (fs, Raise e)) ∨
  (mkdir_parents p fs = (foldl ensure_dir fs (lineage p), Ok tt)
   ∧ ∀ q, q ∈ lineage p → is_file fs q = false).
Proof.
  unfold mkdir_parents.
  destruct (existsb (is_file fs) (lineage (parent p))) eqn:Ex; [eauto|].
  destruct (is_file fs p) eqn:Ep; [eauto|]. right. split; [done|].
  intros q Hq. destruct (decide (tail p = [])) as [Hp|Hp].
  { unfold lineage in Hq. rewrite Hp in Hq. by apply elem_of_nil in Hq. }
  rewrite lineage_parent in Hq by done.
  apply elem_of_app in Hq as [Hq|Hq].
  - destruct (is_file fs q) eqn:Eq; [|done].
    assert (existsb (is_file fs) (lineage (parent p)) = true); [|congruence].
    apply existsb_exists. exists q. split; [|done]. by apply list_elem_of_In.
  - apply list_elem_of_singleton in Hq. by subst.
Qed.

Lemma mkdir_parents_ok p fs :
  (∀ q, q ∈ lineage p → is_file fs q = false) →
  mkdir_parents p fs = (foldl ensure_dir fs (lineage p), Ok tt).
Proof.
  intros H. unfold mkdir_parents.
  destruct (existsb (is_file fs) (lineage (parent p))) eqn:Ex.
  { apply existsb_exists in Ex as (q & Hq & Hf). apply list_elem_of_In in Hq.
    destruct (decide (tail p = [])) as [Hp|Hp].
    - unfold lineage, parent in Hq. simpl in Hq. rewrite Hp in Hq. simpl in Hq.
      by apply elem_of_nil in Hq.
    - rewrite H in Hf; [done|]. rewrite lineage_parent by done.
      apply elem_of_app. by left. }
  destruct (is_file fs p) eqn:Ep; [|done].
  destruct (decide (tail p = [])) as [Hp|Hp].
  - unfold is_file, node_at in Ep. by rewrite Hp in Ep.
  - rewrite H in Ep; [done|]. by apply lineage_self.
Qed.

Lemma mkdir_parents_subseteq p fs : fs ⊆ (mkdir_parents p fs).1.
Proof.
  destruct (mkdir_parents_cases p fs) as [[e ->]|[-> _]]; simpl; [done|].
  apply ensure_dirs_subseteq.
Qed.

Lemma made_is_dir fs l q :
  q ∈ l → is_file fs q = false → tail q ≠ [] → is_dir (foldl ensure_dir fs l) q = true.
Proof.
  intros Hq Hf Ht. unfold is_dir, is_file in *. rewrite node_at_lookup in * by done.
  rewrite ensure_dirs_lookup. destruct (fs !! q) as [[]|]; try done.
  by rewrite bool_decide_true.
Qed.

Lemma mkdir_parents_lineage p fs fs' :
  mkdir_parents p fs = (fs', Ok tt) → ∀ q, q ∈ lineage p → is_dir fs' q = true.
Proof.
  intros Hm q Hq.
  destruct (mkdir_parents_cases p fs) as [[e He]|[He Hf]]; [congruence|].
  rewrite He in Hm. injection Hm as <-.
  apply made_is_dir; auto. by eapply lineage_nonempty.
Qed.

Lemma mkdir_parents_is_dir p fs fs' :
  mkdir_parents p fs = (fs', Ok tt) → is_dir fs' p = true.
Proof.
  intros Hm. destruct (decide (tail p = [])) as [Hp|Hp].
  - unfold is_dir, node_at. by rewrite Hp.
  - eapply mkdir_parents_lineage; [done|]. by apply lineage_self.
Qed.

Lemma mkdir_parents_idem p fs fs' :
  mkdir_parents p fs = (fs', Ok tt) → mkdir_parents p fs' = (fs', Ok tt).
Proof.
  intros Hm. rewrite mkdir_parents_ok.
  - f_equal. apply ensure_dirs_present. intros q Hq.
    pose proof (mkdir_parents_lineage _ _ _ Hm q Hq) as Hd.
    unfold is_dir in Hd. rewrite node_at_lookup in Hd by (by eapply lineage_nonempty).
    destruct (fs' !! q); [eauto|done].
  - intros q Hq. pose proof (mkdir_parents_lineage _ _ _ Hm q Hq) as Hd.
    unfold is_dir, is_file in *. by destruct (node_at fs' q) as [[]|].
Qed.

Lemma shutil_copy_is_dir src dst fs q :
  is_dir fs q = true → is_dir (shutil_copy src dst fs).1 q = true.
Proof.
  intros Hq. unfold shutil_copy.
  set (target := if is_dir fs dst then child dst (name src) else dst).
  destruct (node_at fs src) as [[bytes|]|]; simpl; try done.
  case_bool_decide; [done|].
  destruct (is_dir fs target) eqn:Et; [done|].
  destruct (is_file fs (parent target)); [done|].
  destruct (is_dir fs (parent target)); simpl; [|done].
  unfold is_dir, node_at in *. destruct (tail q) eqn:Etq; [done|].
  rewrite lookup_insert_ne; [done|]. intros ->. rewrite Etq in Et. congruence.
Qed.

Lemma not_in_lineage_parent d : d ∉ lineage (parent d).
Proof.
  unfold lineage, parent. simpl.
  intros (k & Hd & Hk)%list_elem_of_fmap.
  apply elem_of_prefixes in Hk as [Hne [k' Hk']].
  destruct d as [r t]. simpl in *. injection Hd as ->.
  destruct (decide (k = [])) as [->|Ht]; [done|].
  destruct (exists_last Ht) as (t' & x & ->).
  rewrite removelast_last in Hk'.
  apply (f_equal length) in Hk'. rewrite !length_app in Hk'. simpl in Hk'. lia.
Qed.

End filesystem.

(** ** Listing a directory and reading extensions *)

Section listing.
Implicit Types (fs : gmap Path node) (p q d : Path).

Lemma strictly_extends_nonempty {A} `{EqDecision A} (l k : list A) :
  strictly_extends l k = true → k ≠ [].
Proof. by destruct l, k. Qed.

Lemma elem_of_glob_all fs d q :
  q ∈ glob_all fs d ↔ below d q = true ∧ is_Some (fs !! q).
Proof.
  unfold glob_all. rewrite list_elem_of_filter, list_elem_of_fmap.
  rewrite Is_true_true. split.
  - intros [Hb ([q' n] & -> & Hq)]. split; [done|].
    apply elem_of_map_to_list in Hq. simpl. eauto.
  - intros [Hb [n Hq]]. split; [done|]. exists (q, n). split; [done|].
    by apply elem_of_map_to_list.
Qed.

Lemma below_nonempty d q : below d q = true → tail q ≠ [].
Proof.
  unfold below. intros [_ H]%andb_prop. by eapply strictly_extends_nonempty.
Qed.

Lemma is_file_is_Some fs q : tail q ≠ [] → is_file fs q = true → is_Some (fs !! q).
Proof.
  intros Hq. unfold is_file. rewrite node_at_lookup by done.
  destruct (fs !! q); [eauto|done].
Qed.

Lemma elem_of_files_below fs d q :
  q ∈ filter (λ p, is_file fs p) (glob_all fs d) ↔ below d q = true ∧ is_file fs q = true.
Proof.
  rewrite list_elem_of_filter, elem_of_glob_all, Is_true_true. split.
  - tauto.
  - intros [Hb Hf]. split_and!; try done.
    apply is_file_is_Some; [|done]. by eapply below_nonempty.
Qed.

Lemma is_file_not_dir fs p : is_file fs p = true → is_dir fs p = false.
Proof. unfold is_file, is_dir. by destruct (node_at fs p) as [[]|]. Qed.

Lemma get_extension_file fs s :
  is_file fs (PathOf s) = true →
  get_extension s fs = (fs, Ok (ExtStr (Str.drop 1 (suffix (PathOf s))))).
Proof.
  intros Hf. unfold get_extension. io_unfold.
  by rewrite (is_file_not_dir _ _ Hf), Hf.
Qed.

Lemma get_extension_neither fs s :
  is_file fs (PathOf s) = false → is_dir fs (PathOf s) = false →
  get_extension s fs =
    (fs, Raise (ValueError (str (PathOf s) +:+ " is neither a file nor a directory"))).
Proof. intros Hf Hd. unfold get_extension. io_unfold. by rewrite Hd, Hf. Qed.

Lemma get_extension_dir fs s :
  is_dir fs (PathOf s) = true →
  ∃ exts : gset string,
    (∀ e, e ∈ exts ↔
       ∃ q, below (PathOf s) q = true ∧ is_file fs q = true ∧ Str.drop 1 (suffix q) = e) ∧
    ((∃ e, exts = {[ e ]} ∧ get_extension s fs = (fs, Ok (ExtStr e))) ∨
     (size exts ≠ 1 ∧
      ∃ l, get_extension s fs = (fs, Ok (ExtList l)) ∧ NoDup l ∧ ∀ e, e ∈ l ↔ e ∈ exts)).
Proof.
  intros Hd. unfold get_extension. io_unfold. rewrite Hd.
  set (exts := list_to_set _ : gset string). exists exts. split.
  - intros e. unfold exts. rewrite elem_of_list_to_set, list_elem_of_fmap.
    split.
    + intros (q & -> & Hq). apply elem_of_files_below in Hq as [? ?]. eauto.
    + intros (q & Hb & Hf & <-). exists q. split; [done|]. by apply elem_of_files_below.
  - case_bool_decide as Hsize.
    + left. apply size_1_elem_of in Hsize as [e He]. apply leibniz_equiv in He.
      exists e. split; [done|]. rewrite He, elements_singleton. done.
    + right. split; [done|]. exists (elements exts). split; [done|].
      split; [apply NoDup_elements|]. intros e. apply elem_of_elements.
Qed.

End listing.

(** ** The loop of [copy_files_to_directory] *)

Section copying.
Implicit Types (fs : gmap Path node) (p q d dst : Path).

Global Instance dirs_kept_preorder : PreOrder dirs_kept.
Proof. split; [by intros fs q|]. intros a b c Hab Hbc q Hq. auto. Qed.


Lemma mkdir_parents_is_file p fs q :
  is_file (mkdir_parents p fs).1 q = is_file fs q.
Proof.
  destruct (mkdir_parents_cases p fs) as [[e ->]|[-> _]]; simpl; [done|].
  unfold is_file, node_at. destruct (tail q); [done|].
  rewrite ensure_dirs_lookup. destruct (fs !! q) as [[]|]; try done.
  by case_bool_decide.
Qed.

Lemma check_destination_suffix dst c fs :
  suffix dst ≠ EmptyString →
  check_destination dst c fs =
    (fs, Raise (ValueError ("dst should be directory format. but got " +:+ suffix dst))).
Proof.
  intros Hs. unfold check_destination. io_unfold.
  by rewrite bool_decide_true.
Qed.


Lemma check_destination_present dst fs :
  suffix dst = EmptyString → exists_ fs dst = true →
  check_destination dst false fs = (fs, Ok tt).
Proof.
  intros Hs He. unfold check_destination. io_unfold.
  rewrite bool_decide_false by (by intros []). by rewrite He.
Qed.

Lemma is_dir_exists fs p : is_dir fs p = true → exists_ fs p = true.
Proof. unfold is_dir, exists_. by destruct (node_at fs p) as [[]|]. Qed.

Lemma check_destination_create dst fs fs' :
  suffix dst = EmptyString → make_directory dst fs = (fs', Ok tt) →
  check_destination dst true fs = (fs', Ok tt).
Proof.
  intros Hs Hm. unfold check_destination. io_unfold.
  rewrite bool_decide_false by (by intros []). rewrite Hm.
  by rewrite (is_dir_exists _ _ (mkdir_parents_is_dir _ _ _ Hm)).
Qed.

Lemma check_destination_subseteq dst c fs : fs ⊆ (check_destination dst c fs).1.
Proof.
  unfold check_destination. io_unfold. case_bool_decide; [done|].
  destruct c.
  - pose proof (mkdir_parents_subseteq dst fs) as Hsub. unfold make_directory.
    destruct (mkdir_parents dst fs) as [fs1 [[]|e]]; simpl in *; [|done].
    by destruct (exists_ fs1 dst).
  - by destruct (exists_ fs dst).
Qed.








End copying.

(** ** [str.replace] and [natsorted] *)

Section replace.

Lemma startswith_app old s : Str.startswith old (old +:+ s) = true.
Proof.
  induction old as [|a old IH]; [done|].
  rewrite app_String. simpl. by rewrite Ascii.eqb_refl, IH.
Qed.

Lemma startswith_inv old s :
  Str.startswith old s = true → ∃ post, s = old +:+ post.
Proof.
  revert s. induction old as [|a old IH]; intros s; [by exists s|].
  destruct s as [|b s]; [done|]. simpl.
  intros [Hab Hs]%andb_prop. apply Ascii.eqb_eq in Hab. subst b.
  destruct (IH _ Hs) as [post ->]. by exists post.
Qed.

Lemma replace_scan_skip old new w s :
  Str.replace_scan old new (String.length w) (w +:+ s) = Str.replace_scan old new 0 s.
Proof.
  induction w as [|a w IH]; [by destruct s|].
  rewrite app_String. simpl. exact IH.
Qed.

Lemma replace_scan_absent old new s :
  old ≠ EmptyString → ¬ Str.occurs old s → Str.replace_scan old new 0 s = s.
Proof.
  intros Hold. induction s as [|c s IH]; intros Hno; [done|].
  cbn [Str.replace_scan].
  destruct (Str.startswith old (String c s)) eqn:Es.
  - destruct Hno. apply startswith_inv in Es as [post ->]. by exists EmptyString, post.
  - f_equal. apply IH. intros (pre & post & ->). apply Hno.
    by exists (String c pre), post.
Qed.

(** When the text searched for stands at the start and nowhere after it,
    [replace] rewrites the start only. *)
Lemma replace_leading old new rest :
  old ≠ EmptyString → ¬ Str.occurs old rest →
  Str.replace (old +:+ rest) old new = new +:+ rest.
Proof.
  intros Hold Hno. destruct old as [|a old]; [done|].
  unfold Str.replace. rewrite app_String. cbn [Str.replace_scan].
  rewrite <-app_String, startswith_app. f_equal.
  cbn [String.length]. rewrite Nat.sub_1_r. cbn [Nat.pred].
  rewrite replace_scan_skip. by apply replace_scan_absent.
Qed.

(** The destination the loop computes when the prefix stands at the start
    of the text of the entry and nowhere after it. *)
Lemma dst_file_of_leading src_prefix rest dst src_file :
  src_prefix ≠ EmptyString → ¬ Str.occurs src_prefix rest →
  str src_file = src_prefix +:+ rest →
  dst_file_of src_prefix dst src_file = PathOf (str dst +:+ rest).
Proof.
  intros Hne Hno Hs. unfold dst_file_of. rewrite Hs. by rewrite replace_leading.
Qed.

End replace.

Section sorting.
Implicit Types (fs : gmap Path node).

Lemma natsort_insert_perm p l : natsort_insert p l ≡ₚ p :: l.
Proof.
  induction l as [|q l IH]; simpl; [done|].
  destruct (key_lt _ _); [|done]. rewrite IH. apply Permutation_swap.
Qed.

Lemma natsorted_perm l : natsorted l ≡ₚ l.
Proof.
  induction l as [|p l IH]; simpl; [done|].
  rewrite natsort_insert_perm. by rewrite IH.
Qed.

Lemma chunk_lt_asym a b : chunk_lt a b = true → chunk_lt b a = false.
Proof.
  destruct a as [s|m], b as [t|n]; simpl; try done.
  - unfold String.ltb. rewrite (String.compare_antisym t s).
    by destruct (String.compare s t).
  - intros H%N.ltb_lt. apply N.ltb_ge. lia.
Qed.

Lemma key_lt_asym a b : key_lt a b = true → key_lt b a = false.
Proof.
  revert b. induction a as [|x a IH]; intros [|y b]; simpl; try done.
  destruct (chunk_lt x y) eqn:Exy.
  - by rewrite (chunk_lt_asym _ _ Exy).
  - destruct (chunk_lt y x); [done|]. apply IH.
Qed.

Lemma natsort_insert_sorted p l :
  Sorted natural_le l → Sorted natural_le (natsort_insert p l).
Proof.
  induction 1 as [|q l Hl IH Hq]; simpl; [by repeat constructor|].
  destruct (key_lt _ _) eqn:E.
  - constructor; [done|].
    destruct Hq as [|r l Hr]; simpl.
    + constructor. by apply key_lt_asym.
    + destruct (key_lt (natsort_key (str r)) _); constructor; [done|].
      by apply key_lt_asym.
  - constructor; [by constructor|]. by constructor.
Qed.

Lemma natsorted_sorted l : Sorted natural_le (natsorted l).
Proof.
  induction l as [|p l IH]; simpl; [constructor|]. by apply natsort_insert_sorted.
Qed.

Lemma get_files_list_not_directory fs s ext :
  is_dir fs (PathOf s) = false →
  get_files_list s ext fs = (fs, Raise (ValueError (str (PathOf s) +:+ " is not directory"))).
Proof. intros Hd. unfold get_files_list. io_unfold. by rewrite Hd. Qed.

(** Without a filter the result holds the entries below the directory, each
    once as in the listing, in natural order. *)
Lemma get_files_list_all fs s :
  is_dir fs (PathOf s) = true →
  ∃ l, get_files_list s None fs = (fs, Ok l)
     ∧ l ≡ₚ glob_all fs (PathOf s)
     ∧ Sorted natural_le l
     ∧ ∀ q, q ∈ l ↔ below (PathOf s) q = true ∧ is_Some (fs !! q).
Proof.
  intros Hd. unfold get_files_list. io_unfold. rewrite Hd. simpl.
  eexists. split; [done|]. split_and!.
  - apply natsorted_perm.
  - apply natsorted_sorted.
  - intros q. rewrite natsorted_perm. apply elem_of_glob_all.
Qed.


End sorting.


(** ** [commonpath] *)

Section common_path.
Implicit Types (fs : gmap Path node).

Lemma common_prefix_diag a : common_prefix a a = a.
Proof. induction a as [|x a IH]; simpl; [done|]. by rewrite bool_decide_true, IH. Qed.

Lemma common_components_lower p ps x :
  x ∈ p :: ps → common_components p ps `prefix_of` components x.
Proof.
  intros Hx. unfold common_components.
  assert (components x ∈ components p :: (components <$> ps)) as Hc.
  { change (components x ∈ components <$> (p :: ps)). by apply list_elem_of_fmap_2. }
  apply common_prefix_between.
  - destruct (minimum_lower (components p) (components <$> ps)) as [H1 H2].
    apply elem_of_cons in Hc as [->|Hc]; auto.
  - destruct (maximum_upper (components p) (components <$> ps)) as [H1 H2].
    apply elem_of_cons in Hc as [->|Hc]; auto.
Qed.

Lemma common_components_greatest p ps c :
  (∀ x, x ∈ p :: ps → c `prefix_of` components x) →
  c `prefix_of` common_components p ps.
Proof.
  intros Hc. unfold common_components.
  assert (∀ k, k ∈ components p :: (components <$> ps) → c `prefix_of` k) as Hk.
  { intros k Hk. change (k ∈ components <$> (p :: ps)) in Hk.
    apply list_elem_of_fmap in Hk as (x & -> & Hx). auto. }
  apply common_prefix_greatest; apply Hk; [apply minimum_elem|apply maximum_elem].
Qed.

Lemma common_components_pieces p ps c :
  c ∈ common_components p ps →
  Str.split c = [c] ∧ c ≠ EmptyString ∧ c ≠ "."%string.
Proof.
  intros Hc.
  destruct (common_components_lower p ps p) as [k Hk]; [apply elem_of_cons; by left|].
  assert (c ∈ components p) as Hp.
  { rewrite Hk. apply elem_of_app. by left. }
  apply elem_of_components in Hp as (Hs & ? & ?). split_and!; try done.
  by eapply split_piece.
Qed.

Lemma commonpath_ok p ps :
  forallb (λ q, eqb (isabs q) (isabs p)) ps = true →
  commonpath (p :: ps) =
    Ok ((if isabs p then "/"%string else EmptyString)
        +:+ String.concat "/" (common_components p ps)).
Proof. intros H. unfold commonpath. by rewrite H. Qed.

Lemma prefix_text_components (absolute : bool) cs :
  (∀ c, c ∈ cs → Str.split c = [c] ∧ c ≠ EmptyString ∧ c ≠ "."%string) →
  components ((if absolute then "/"%string else EmptyString) +:+ String.concat "/" cs) = cs.
Proof.
  intros Hcs. destruct absolute.
  - change ("/" +:+ String.concat "/" cs) with (String "/" (String.concat "/" cs)).
    rewrite components_slash. by apply components_concat.
  - rewrite app_empty. by apply components_concat.
Qed.

End common_path.

(** * The claims *)

Section claims.
Implicit Types (fs : gmap Path node) (p q d : Path).

(** C1 (the claim fails on the code).  The loop computes the destination
    with [str.replace], which rewrites every occurrence of the prefix text,
    not only the leading one.  Copying the directory [a], which holds
    [a/a.txt], into [E] resolves to the prefix [a] and the one entry
    [a/a.txt]; the destination computed for it is [E/E.txt], the bytes are
    written there, and [E/a.txt] does not exist afterwards. *)
Theorem prefix_replaced_everywhere :
  (resolve_source (SrcPath "a") Examples.echo).2 =
    Ok (Some ("a"%string, [PathOf "a/a.txt"]), "a"%string)
  ∧ dst_file_of "a" (PathOf "E") (PathOf "a/a.txt") = PathOf "E/E.txt"
  ∧ (copy_files_to_directory (SrcPath "a") "E" false Examples.echo).2 = Ok tt
  ∧ (copy_files_to_directory (SrcPath "a") "E" false Examples.echo).1
      !! PathOf "E/E.txt" = Some (File "A")
  ∧ (copy_files_to_directory (SrcPath "a") "E" false Examples.echo).1
      !! PathOf "E/a.txt" = None.
Proof. repeat apply conj; vm_compute; reflexivity. Qed.

(** C2, amended.  A single path that names neither a file nor a directory
    makes [copy_files_to_directory] raise [FileNotFoundError] with the
    message [unknown source ...], whatever the destination and the flag, and
    the filesystem is left as it was; so does a value that is neither a list
    nor a path.  The empty list is not reported that way: [commonpath]
    raises its own [ValueError], also with the filesystem untouched. *)
Theorem unresolvable_source_fails fs s dst create :
  is_file fs (PathOf s) = false → is_dir fs (PathOf s) = false →
  copy_files_to_directory (SrcPath s) dst create fs =
    (fs, Raise (FileNotFoundError ("unknown source " +:+ str (PathOf s))))
  ∧ (∀ repr, copy_files_to_directory (SrcOther repr) dst create fs =
       (fs, Raise (FileNotFoundError ("unknown source " +:+ repr))))
  ∧ copy_files_to_directory (SrcList []) dst create fs =
      (fs, Raise (ValueError "commonpath() arg is an empty sequence")).
Proof.
  intros Hf Hd. split_and!.
  - by apply copy_unresolved_path.
  - intros repr. by rewrite copy_unfold.
  - by rewrite copy_unfold.
Qed.


(** C4.  For a source that resolves, a destination whose last component
    has a suffix makes the call raise the [ValueError] of the destination
    format, in every filesystem (so also when the destination exists as a
    directory) and for both values of the flag; the filesystem is left as
    it was. *)
Theorem suffixed_destination_rejected fs src dst create src_prefix src_list txt :
  resolve_source src fs = (fs, Ok (Some (src_prefix, src_list), txt)) →
  suffix (PathOf dst) ≠ EmptyString →
  copy_files_to_directory src dst create fs =
    (fs, Raise (ValueError ("dst should be directory format. but got "
                            +:+ suffix (PathOf dst)))).
Proof.
  intros Hr Hs. rewrite (copy_resolved _ _ _ _ _ _ _ Hr).
  apply bind_raise. by apply check_destination_suffix.
Qed.


(** C6.  For a non-empty list whose entries are all absolute or all
    relative, the source resolves to the text of the common path and to the
    entries themselves, as paths, in the order given.  The components of the
    common path are a leading segment of the components of every entry, and
    every sequence of components that leads every entry leads the common
    path: it is the deepest path above or equal to all of them.  For a
    single entry it is that entry. *)
Theorem list_source_common_path fs (x : string) (xs : list string) :
  forallb (λ y, eqb (isabs y) (isabs x)) xs = true →
  let comps := common_components x xs in
  let src_prefix :=
    (if isabs x then "/"%string else EmptyString) +:+ String.concat "/" comps in
  resolve_source (SrcList (x :: xs)) fs =
    (fs, Ok (Some (src_prefix, PathOf <$> (x :: xs)), EmptyString))
  ∧ tail (PathOf src_prefix) = comps
  ∧ (∀ q, q ∈ PathOf <$> (x :: xs) → comps `prefix_of` tail q)
  ∧ (∀ c, (∀ q, q ∈ PathOf <$> (x :: xs) → c `prefix_of` tail q) → c `prefix_of` comps)
  ∧ (xs = [] → comps = tail (PathOf x)).
Proof.
  intros Habs comps src_prefix. split_and!.
  - unfold resolve_source. by rewrite (commonpath_ok _ _ Habs).
  - rewrite tail_PathOf. apply prefix_text_components.
    intros c Hc. by eapply common_components_pieces.
  - intros q (y & -> & Hy)%list_elem_of_fmap. rewrite tail_PathOf.
    by apply common_components_lower.
  - intros c Hc. apply common_components_greatest. intros y Hy.
    rewrite <-tail_PathOf. apply Hc. by apply list_elem_of_fmap_2.
  - intros ->. rewrite tail_PathOf. unfold comps, common_components. simpl.
    apply common_prefix_diag.
Qed.

(** C7 (the claim fails on the code).  Without a filter [get_files_list]
    returns every entry below the directory, and the directories among
    them: listing [D] gives the two subdirectories [D/empty] and [D/sub]
    next to the two files. *)
Theorem get_files_list_returns_directories :
  (get_files_list "D" None Examples.tree).2 =
    Ok [PathOf "D/a.txt"; PathOf "D/empty"; PathOf "D/sub"; PathOf "D/sub/b.txt"]
  ∧ is_dir Examples.tree (PathOf "D/sub") = true
  ∧ is_file Examples.tree (PathOf "D/sub") = false
  ∧ is_dir Examples.tree (PathOf "D/empty") = true.
Proof. repeat apply conj; vm_compute; reflexivity. Qed.

(** C8.  On a file [get_extension] returns the extension of the file, as a
    string.  On a directory there is the set of the extensions of the files
    below it: when it has exactly one element that string is returned, and
    otherwise a list without repetitions of the elements of the set.  On a
    path that is neither, it raises a [ValueError] naming the path.  The
    filesystem is left as it was. *)
Theorem get_extension_cases fs s :
  (is_file fs (PathOf s) = true →
     get_extension s fs = (fs, Ok (ExtStr (Str.drop 1 (suffix (PathOf s))))))
  ∧ (is_dir fs (PathOf s) = true →
     ∃ exts : gset string,
       (∀ e, e ∈ exts ↔
          ∃ q, below (PathOf s) q = true ∧ is_file fs q = true
               ∧ Str.drop 1 (suffix q) = e)
       ∧ ((∃ e, exts = {[ e ]} ∧ get_extension s fs = (fs, Ok (ExtStr e)))
          ∨ (size exts ≠ 1
             ∧ ∃ l, get_extension s fs = (fs, Ok (ExtList l))
                  ∧ NoDup l ∧ ∀ e, e ∈ l ↔ e ∈ exts)))
  ∧ (is_file fs (PathOf s) = false → is_dir fs (PathOf s) = false →
     get_extension s fs =
       (fs, Raise (ValueError (str (PathOf s) +:+ " is neither a file nor a directory")))).
Proof.
  split_and!.
  - apply get_extension_file.
  - apply get_extension_dir.
  - apply get_extension_neither.
Qed.

(** C9.  The checks come in this order.  An error of the resolution of the
    source, and a source that resolves to nothing, end the call with the
    error of the source and with the filesystem as it was, whatever the
    destination and the flag: no destination is made.  For a source that
    resolves, a destination with a suffix ends the call with the error of
    the destination format and with the filesystem as it was, also when the
    flag is on: that destination is not made. *)
Theorem copy_checks_in_order fs src dst create :
  (∀ e, (resolve_source src fs).2 = Raise e →
     copy_files_to_directory src dst create fs = (fs, Raise e))
  ∧ (∀ txt, (resolve_source src fs).2 = Ok (None, txt) →
       copy_files_to_directory src dst create fs =
         (fs, Raise (FileNotFoundError ("unknown source " +:+ txt))))
  ∧ (∀ r txt, (resolve_source src fs).2 = Ok (Some r, txt) →
       suffix (PathOf dst) ≠ EmptyString →
       copy_files_to_directory src dst create fs =
         (fs, Raise (ValueError ("dst should be directory format. but got "
                                 +:+ suffix (PathOf dst)))))
  ∧ (∀ s, src = SrcPath s →
       is_file fs (PathOf s) = false → is_dir fs (PathOf s) = false →
       (resolve_source src fs).2 = Ok (None, str (PathOf s))).
Proof.
  split_and!.
  - intros e H. rewrite copy_unfold. by rewrite H.
  - intros txt H. rewrite copy_unfold. by rewrite H.
  - intros [src_prefix src_list] txt H Hs. rewrite copy_unfold, H.
    apply bind_raise. by apply check_destination_suffix.
  - intros s -> Hf Hd. simpl. io_unfold. by rewrite Hf, Hd.
Qed.

(** C10.  On a directory with no file below it, [get_extension] returns the
    empty list. *)
Theorem get_extension_no_files fs s :
  is_dir fs (PathOf s) = true →
  (∀ q, below (PathOf s) q = true → is_file fs q = false) →
  get_extension s fs = (fs, Ok (ExtList [])).
Proof.
  intros Hd Hnone. unfold get_extension. io_unfold. rewrite Hd.
  assert (filter (λ p, is_file fs p) (glob_all fs (PathOf s)) = []) as ->.
  { apply elem_of_nil_inv. intros q [Hb Hf]%elem_of_files_below.
    rewrite Hnone in Hf; done. }
  rewrite fmap_nil, list_to_set_nil.
  rewrite bool_decide_false; [|by rewrite size_empty].
  by rewrite elements_empty.
Qed.

End claims.

(** * The claims at sample inputs *)

Lemma no_files_below (fs : gmap Path node) d :
  forallb (λ q, negb (is_file fs q)) (glob_all fs d) = true →
  ∀ q, below d q = true → is_file fs q = false.
Proof.
  intros Hall q Hb. destruct (is_file fs q) eqn:Hf; [|done].
  assert (q ∈ glob_all fs d) as Hq.
  { apply elem_of_glob_all. split; [done|].
    apply is_file_is_Some; [|done]. by eapply below_nonempty. }
  rewrite forallb_forall in Hall. apply list_elem_of_In, Hall in Hq.
  by rewrite Hf in Hq.
Qed.

Lemma unresolvable_source_fails_witness :
  is_file Examples.tree (PathOf "nope") = false
  ∧ is_dir Examples.tree (PathOf "nope") = false
  ∧ exists_ Examples.tree (PathOf "F/G") = false
  ∧ copy_files_to_directory (SrcPath "nope") "F/G" true Examples.tree =
      (Examples.tree, Raise (FileNotFoundError "unknown source nope")).
Proof.
  repeat (split; [vm_compute; reflexivity|]).
  apply (unresolvable_source_fails Examples.tree "nope" "F/G" true);
    vm_compute; reflexivity.
Defined.

(** The empty list does not end in the error of an unknown source. *)
Lemma empty_list_is_not_source_not_found :
  (copy_files_to_directory (SrcList []) "E" true Examples.tree).2 =
    Raise (ValueError "commonpath() arg is an empty sequence")
  ∧ ¬ ∃ msg, (copy_files_to_directory (SrcList []) "E" true Examples.tree).2 =
               Raise (FileNotFoundError msg).
Proof.
  split; [vm_compute; reflexivity|].
  intros [msg H]. vm_compute in H. discriminate H.
Qed.


Lemma suffixed_destination_rejected_witness :
  resolve_source (SrcPath "D") Examples.tree =
    (Examples.tree,
     Ok (Some ("D"%string, glob_all Examples.tree (PathOf "D")), "D"%string))
  ∧ suffix (PathOf "out.d") ≠ EmptyString
  ∧ is_dir Examples.tree (PathOf "out.d") = true
  ∧ copy_files_to_directory (SrcPath "D") "out.d" true Examples.tree =
      (Examples.tree, Raise (ValueError "dst should be directory format. but got .d")).
Proof.
  assert (is_dir Examples.tree (PathOf "D") = true) as HD by (vm_compute; reflexivity).
  pose proof (resolve_source_dir Examples.tree "D" HD) as Hr.
  assert (suffix (PathOf "out.d") ≠ EmptyString) as Hs by (vm_compute; discriminate).
  split; [exact Hr|]. split; [exact Hs|]. split; [vm_compute; reflexivity|].
  exact (suffixed_destination_rejected _ _ _ true _ _ _ Hr Hs).
Defined.



Lemma list_source_common_path_witness :
  forallb (λ y, eqb (isabs y) (isabs "X/a.txt"))
          ["X/sub/b.txt"%string; "X/sub/c.txt"%string] = true
  ∧ resolve_source (SrcList ["X/a.txt"; "X/sub/b.txt"; "X/sub/c.txt"]%string)
                   Examples.tree =
      (Examples.tree,
       Ok (Some ("X"%string,
                 [PathOf "X/a.txt"; PathOf "X/sub/b.txt"; PathOf "X/sub/c.txt"]),
           EmptyString)).
Proof.
  split; [vm_compute; reflexivity|].
  exact (proj1 (list_source_common_path Examples.tree "X/a.txt"
                  ["X/sub/b.txt"%string; "X/sub/c.txt"%string] eq_refl)).
Defined.

Lemma get_extension_cases_witness :
  is_dir Examples.pics (PathOf "pics") = true
  ∧ ∃ l, get_extension "pics" Examples.pics = (Examples.pics, Ok (ExtList l))
       ∧ "png"%string ∈ l ∧ "jpg"%string ∈ l.
Proof.
  assert (is_dir Examples.pics (PathOf "pics") = true) as Hd by (vm_compute; reflexivity).
  split; [exact Hd|].
  destruct (get_extension_cases Examples.pics "pics") as (_ & Hdir & _).
  destruct (Hdir Hd) as (exts & Hin & Hres).
  assert ("png"%string ∈ exts) as Hpng.
  { apply Hin. exists (PathOf "pics/img2.png"). repeat apply conj; vm_compute; reflexivity. }
  assert ("jpg"%string ∈ exts) as Hjpg.
  { apply Hin. exists (PathOf "pics/photo.jpg"). repeat apply conj; vm_compute; reflexivity. }
  destruct Hres as [(e & He & _)|(_ & l & Hl & _ & Hmem)].
  - exfalso. rewrite He in Hpng, Hjpg.
    apply elem_of_singleton in Hpng, Hjpg. rewrite <-Hpng in Hjpg. discriminate Hjpg.
  - exists l. split; [exact Hl|]. split; by apply Hmem.
Defined.

Lemma copy_checks_in_order_witness :
  (resolve_source (SrcPath "nope") Examples.tree).2 = Ok (None, "nope"%string)
  ∧ exists_ Examples.tree (PathOf "F/G") = false
  ∧ copy_files_to_directory (SrcPath "nope") "F/G" true Examples.tree =
      (Examples.tree, Raise (FileNotFoundError "unknown source nope")).
Proof.
  assert ((resolve_source (SrcPath "nope") Examples.tree).2 = Ok (None, "nope"%string))
    as Hr by (vm_compute; reflexivity).
  split; [exact Hr|]. split; [vm_compute; reflexivity|].
  exact (proj1 (proj2 (copy_checks_in_order Examples.tree (SrcPath "nope") "F/G" true))
           "nope"%string Hr).
Defined.

Lemma get_extension_no_files_witness :
  is_dir Examples.tree (PathOf "D/empty") = true
  ∧ get_extension "D/empty" Examples.tree = (Examples.tree, Ok (ExtList [])).
Proof.
  assert (is_dir Examples.tree (PathOf "D/empty") = true) as Hd
    by (vm_compute; reflexivity).
  split; [exact Hd|].
  apply (get_extension_no_files Examples.tree "D/empty" Hd).
  apply no_files_below. vm_compute. reflexivity.
Defined.

(** ** More sample runs *)

(** The tree of [D] arrives under [E] with its files. *)
Example copy_directory_tree :
  (λ fs' : gmap Path node,
     (fs' !! PathOf "E/a.txt", fs' !! PathOf "E/sub/b.txt", fs' !! PathOf "E/sub"))
    (copy_files_to_directory (SrcPath "D") "E" false Examples.tree).1
  = (Some (File "A"), Some (File "B"), Some Dir).
Proof. repeat apply conj; vm_compute; reflexivity. Qed.

(** A list with the common path [D] gives the same layout. *)
Example copy_explicit_list :
  (λ fs' : gmap Path node, (fs' !! PathOf "E/a.txt", fs' !! PathOf "E/sub/b.txt"))
    (copy_files_to_directory (SrcList ["D/a.txt"; "D/sub/b.txt"]%string)
       "E" false Examples.tree).1
  = (Some (File "A"), Some (File "B")).
Proof. repeat apply conj; vm_compute; reflexivity. Qed.

(** The common path of a single entry is the entry. *)
Example single_entry_prefix :
  (resolve_source (SrcList ["D/a.txt"%string]) Examples.tree).2 =
    Ok (Some ("D/a.txt"%string, [PathOf "D/a.txt"]), EmptyString).
Proof. vm_compute. reflexivity. Qed.

(** A file in the current directory has the prefix [.], and every dot of
    its name is rewritten. *)
Example dot_prefix :
  dst_file_of (str (parent (PathOf "x.txt"))) (PathOf "E") (PathOf "x.txt")
  = PathOf "xEtxt".
Proof. vm_compute. reflexivity. Qed.

(** Numbers inside names are compared as numbers. *)
Example natural_order :
  (get_files_list "pics" None Examples.pics).2 =
    Ok [PathOf "pics/img2.png"; PathOf "pics/img10.png"; PathOf "pics/photo.jpg"].
Proof. vm_compute. reflexivity. Qed.

Example single_extension :
  (get_extension "D" Examples.tree).2 = Ok (ExtStr "txt").
Proof. vm_compute. reflexivity. Qed.

(** * The rest of the module: properties *)

(** ** [make_directory] *)

Section directories.
Implicit Types (fs : gmap Path node) (p q d : Path).

Lemma existsb_is_file_false fs l :
  existsb (is_file fs) l = false → ∀ q, q ∈ l → is_file fs q = false.
Proof.
  intros H q Hq. destruct (is_file fs q) eqn:E; [|done].
  assert (existsb (is_file fs) l = true); [|congruence].
  apply existsb_exists. exists q. split; [by apply list_elem_of_In|done].
Qed.

Lemma existsb_is_file_false_2 fs l :
  (∀ q, q ∈ l → is_file fs q = false) → existsb (is_file fs) l = false.
Proof.
  intros H. destruct (existsb (is_file fs) l) eqn:E; [|done].
  apply existsb_exists in E as (q & Hq & Hf). apply list_elem_of_In in Hq.
  by rewrite H in Hf.
Qed.

Lemma existsb_is_file_true fs l :
  existsb (is_file fs) l = true → ∃ q, q ∈ l ∧ is_file fs q = true.
Proof.
  intros (q & Hq & Hf)%existsb_exists. exists q. split; [by apply list_elem_of_In|done].
Qed.

Lemma mkdir_parents_blocked p fs :
  existsb (is_file fs) (lineage p) = true →
  ∃ e, mkdir_parents p fs = (fs, Raise e).
Proof.
  intros H. destruct (mkdir_parents_cases p fs) as [?|[_ Hnone]]; [done|].
  apply existsb_is_file_true in H as (q & Hq & Hf). by rewrite Hnone in Hf.
Qed.

Lemma mkdir_parents_effect fs p :
  existsb (is_file fs) (lineage p) = false →
  ∃ fs', make_directory p fs = (fs', Ok tt)
       ∧ is_dir fs' p = true
       ∧ (∀ q, q ∈ lineage p → fs' !! q = Some Dir)
       ∧ (∀ q n, fs !! q = Some n → fs' !! q = Some n)
       ∧ (∀ q, q ∉ lineage p → fs' !! q = fs !! q).
Proof.
  intros Hnone. pose proof (existsb_is_file_false _ _ Hnone) as Hnone'.
  pose proof (mkdir_parents_ok _ _ Hnone') as Hm.
  eexists. split; [exact Hm|]. split_and!.
  - by apply (mkdir_parents_is_dir _ _ _ Hm).
  - intros q Hq. pose proof (mkdir_parents_lineage _ _ _ Hm q Hq) as Hd.
    unfold is_dir in Hd. rewrite node_at_lookup in Hd by (by eapply lineage_nonempty).
    by destruct (_ !! q) as [[]|].
  - intros q n Hq. rewrite ensure_dirs_lookup. by rewrite Hq.
  - intros q Hq. rewrite ensure_dirs_lookup. destruct (fs !! q); [done|].
    by rewrite bool_decide_false.
Qed.

(** X1.  When no regular file stands at [p] or above it, [make_directory]
    succeeds; afterwards [p] and every directory above it are directories,
    every old entry is as it was, and no path outside that lineage has
    changed. *)
Theorem make_directory_makes_lineage fs p :
  existsb (is_file fs) (lineage p) = false →
  ∃ fs', make_directory p fs = (fs', Ok tt)
       ∧ is_dir fs' p = true
       ∧ (∀ q, q ∈ lineage p → fs' !! q = Some Dir)
       ∧ (∀ q n, fs !! q = Some n → fs' !! q = Some n)
       ∧ (∀ q, q ∉ lineage p → fs' !! q = fs !! q).
Proof. apply mkdir_parents_effect. Qed.

(** X2.  When a regular file stands at [p] or above it, [make_directory]
    raises and changes nothing, although it is called with [exist_ok]:
    [NotADirectoryError] for a file above [p], [FileExistsError] for a file
    at [p] itself. *)
Theorem make_directory_blocked_by_file fs p :
  existsb (is_file fs) (lineage p) = true →
  make_directory p fs =
    (fs, Raise (if existsb (is_file fs) (lineage (parent p))
                then NotADirectoryError (str p)
                else FileExistsError (str p))).
Proof.
  intros H. unfold make_directory, mkdir_parents.
  destruct (existsb (is_file fs) (lineage (parent p))) eqn:Hp; [done|].
  assert (is_file fs p = true) as ->; [|done].
  apply existsb_is_file_true in H as (q & Hq & Hf).
  destruct (decide (tail p = [])) as [Hn|Hn].
  { unfold lineage in Hq. rewrite Hn in Hq. by apply elem_of_nil in Hq. }
  rewrite lineage_parent in Hq by done. apply elem_of_app in Hq as [Hq|Hq].
  - by rewrite (existsb_is_file_false _ _ Hp q Hq) in Hf.
  - apply list_elem_of_singleton in Hq. by subst.
Qed.

(** X3.  Calling [make_directory] twice on the same path is the same as
    calling it once, whether it succeeds or raises. *)
Theorem make_directory_twice fs p :
  (make_directory p;; make_directory p) fs = make_directory p fs.
Proof.
  unfold make_directory. io_unfold.
  destruct (mkdir_parents p fs) as [fs' [[]|e]] eqn:Hm; [|done].
  by apply mkdir_parents_idem in Hm.
Qed.

Lemma ensure_dirs_comm fs l k :
  foldl ensure_dir (foldl ensure_dir fs l) k = foldl ensure_dir (foldl ensure_dir fs k) l.
Proof.
  apply map_eq. intros q. rewrite !ensure_dirs_lookup.
  destruct (fs !! q); [done|]. by repeat case_bool_decide.
Qed.

Lemma mkdir_parents_after p q fs fs1 :
  mkdir_parents p fs = (fs1, Ok tt) →
  existsb (is_file fs) (lineage q) = false →
  mkdir_parents q fs1 = (foldl ensure_dir fs1 (lineage q), Ok tt).
Proof.
  intros Hp Hq. apply mkdir_parents_ok. intros a Ha.
  pose proof (mkdir_parents_is_file p fs a) as Hf. rewrite Hp in Hf. simpl in Hf.
  rewrite Hf. by eapply existsb_is_file_false.
Qed.

(** X4.  Two directories that can each be made can be made in either
    order, with the same filesystem at the end. *)
Theorem make_directory_order fs p q fs1 fs2 :
  make_directory p fs = (fs1, Ok tt) →
  make_directory q fs = (fs2, Ok tt) →
  ∃ fs', make_directory q fs1 = (fs', Ok tt) ∧ make_directory p fs2 = (fs', Ok tt).
Proof.
  unfold make_directory. intros Hp Hq.
  destruct (mkdir_parents_cases p fs) as [[e He]|[Hp' Hpf]]; [congruence|].
  destruct (mkdir_parents_cases q fs) as [[e He]|[Hq' Hqf]]; [congruence|].
  apply existsb_is_file_false_2 in Hpf, Hqf.
  rewrite (mkdir_parents_after _ _ _ _ Hp Hqf), (mkdir_parents_after _ _ _ _ Hq Hpf).
  rewrite Hp' in Hp. rewrite Hq' in Hq. injection Hp as <-. injection Hq as <-.
  eexists. split; [done|]. by rewrite ensure_dirs_comm.
Qed.

End directories.

(** ** [copy_file] *)

Section files.
Implicit Types (fs : gmap Path node) (p q d src : Path).

Lemma is_file_lookup fs p : is_file fs p = true → ∃ b, fs !! p = Some (File b).
Proof.
  unfold is_file, node_at. destruct (tail p); [done|].
  destruct (fs !! p) as [[b|]|]; try done. eauto.
Qed.

Lemma is_file_tail fs p : is_file fs p = true → tail p ≠ [].
Proof. unfold is_file, node_at. by destruct (tail p). Qed.

Lemma lookup_file_node_at fs p b : fs !! p = Some (File b) → tail p ≠ [] → node_at fs p = Some (File b).
Proof. intros H Ht. by rewrite node_at_lookup. Qed.

Lemma parent_child p c : parent (child p c) = p.
Proof. unfold parent, child. simpl. rewrite removelast_last. by destruct p. Qed.

(** What [shutil_copy] does once its target is known not to be a directory. *)
Lemma shutil_copy_onto fs src dst b :
  node_at fs src = Some (File b) →
  is_dir fs dst = false → src ≠ dst → is_dir fs (parent dst) = true →
  shutil_copy src dst fs = (<[dst := File b]> fs, Ok tt).
Proof.
  intros Hs Hd Hne Hp. unfold shutil_copy. rewrite Hd, Hs.
  rewrite bool_decide_false by done. rewrite Hd.
  assert (is_file fs (parent dst) = false) as ->.
  { unfold is_dir, is_file in *. by destruct (node_at fs (parent dst)) as [[]|]. }
  by rewrite Hp.
Qed.

Lemma mkdir_parents_node_at p fs fs' q n :
  mkdir_parents p fs = (fs', Ok tt) → node_at fs q = Some n → node_at fs' q = Some n.
Proof.
  intros Hm. apply node_at_weaken.
  pose proof (mkdir_parents_subseteq p fs) as H. by rewrite Hm in H.
Qed.

Lemma mkdir_parents_lookup p fs fs' q :
  mkdir_parents p fs = (fs', Ok tt) →
  fs' !! q = match fs !! q with
             | Some n => Some n
             | None => if bool_decide (q ∈ lineage p) then Some Dir else None
             end.
Proof.
  intros Hm. destruct (mkdir_parents_cases p fs) as [[e He]|[He _]]; [congruence|].
  rewrite He in Hm. injection Hm as <-. apply ensure_dirs_lookup.
Qed.

Lemma is_dir_false_tail fs p : is_dir fs p = false → tail p ≠ [].
Proof. unfold is_dir, node_at. by destruct (tail p). Qed.

(** X5.  With [create_directory] on, [copy_file] of a regular file to a
    destination that is not a directory, is not the source, and has no
    regular file above it, succeeds: the missing directories above the
    destination are made, the destination holds the bytes of the source,
    the source is as it was, and no other path has changed. *)
Theorem copy_file_creates_and_writes fs src dst b :
  node_at fs src = Some (File b) →
  is_dir fs (PathOf dst) = false →
  src ≠ PathOf dst →
  existsb (is_file fs) (lineage (parent (PathOf dst))) = false →
  ∃ fs', copy_file src dst true fs = (fs', Ok tt)
       ∧ fs' !! PathOf dst = Some (File b)
       ∧ node_at fs' src = Some (File b)
       ∧ (∀ q, q ∈ lineage (parent (PathOf dst)) → fs' !! q = Some Dir)
       ∧ (∀ q, q ≠ PathOf dst → q ∉ lineage (parent (PathOf dst)) → fs' !! q = fs !! q)
       ∧ (∀ q n, q ≠ PathOf dst → fs !! q = Some n → fs' !! q = Some n).
Proof.
  intros Hs Hd Hne Hnone. set (d := PathOf dst) in *.
  destruct (mkdir_parents_effect fs (parent d) Hnone)
    as (fs1 & Hm & Hpd & Hlin & Hold & Hframe).
  unfold make_directory in Hm.
  pose proof (is_dir_false_tail _ _ Hd) as Ht.
  assert (is_dir fs1 d = false) as Hd1.
  { unfold is_dir in *. rewrite node_at_lookup in * by done.
    rewrite Hframe by apply not_in_lineage_parent. done. }
  exists (<[d := File b]> fs1). split.
  { unfold copy_file, make_directory. fold d. io_unfold. rewrite Hm.
    apply shutil_copy_onto; try done. by eapply mkdir_parents_node_at. }
  split_and!.
  - apply lookup_insert_eq.
  - unfold node_at in *. destruct (tail src); [done|].
    rewrite lookup_insert_ne by done. by apply Hold.
  - intros q Hq. rewrite lookup_insert_ne; [by apply Hlin|].
    intros <-. by apply (not_in_lineage_parent d).
  - intros q Hq1 Hq2. rewrite lookup_insert_ne by done. by apply Hframe.
  - intros q n Hq Hn. rewrite lookup_insert_ne by done. by apply Hold.
Qed.

(** X6.  When the destination of [copy_file] is a directory, the bytes go
    to the name of the source inside that directory, and nothing else
    changes. *)
Theorem copy_file_into_directory fs src dst b :
  node_at fs src = Some (File b) →
  is_dir fs (PathOf dst) = true →
  is_dir fs (child (PathOf dst) (name src)) = false →
  src ≠ child (PathOf dst) (name src) →
  copy_file src dst false fs =
    (<[child (PathOf dst) (name src) := File b]> fs, Ok tt).
Proof.
  intros Hs Hd Ht Hne. unfold copy_file. io_unfold.
  unfold shutil_copy. rewrite Hd, Hs, Ht.
  rewrite bool_decide_false by done. rewrite parent_child, Hd.
  assert (is_file fs (PathOf dst) = false) as ->; [|done].
  unfold is_dir, is_file in *. by destruct (node_at fs (PathOf dst)) as [[]|].
Qed.


Lemma shutil_copy_is_file src dst fs q :
  is_file fs q = true → is_file (shutil_copy src dst fs).1 q = true.
Proof.
  intros Hq. unfold shutil_copy.
  set (target := if is_dir fs dst then child dst (name src) else dst).
  destruct (node_at fs src) as [[bytes|]|]; simpl; try done.
  case_bool_decide; [done|].
  destruct (is_dir fs target) eqn:Et; [done|].
  destruct (is_file fs (parent target)); [done|].
  destruct (is_dir fs (parent target)); simpl; [|done].
  unfold is_file, node_at in *. destruct (tail q) eqn:Etq; [done|].
  destruct (decide (target = q)) as [->|Hne].
  - by rewrite lookup_insert_eq.
  - by rewrite lookup_insert_ne.
Qed.

(** X8.  Whatever its arguments and whether it succeeds or raises,
    [copy_file] removes nothing: a directory stays a directory and a regular
    file stays a regular file. *)
Theorem copy_file_keeps_entries fs src dst create q :
  (is_dir fs q = true → is_dir (copy_file src dst create fs).1 q = true)
  ∧ (is_file fs q = true → is_file (copy_file src dst create fs).1 q = true).
Proof.
  unfold copy_file. io_unfold.
  assert (∀ fs1 : gmap Path node, fs ⊆ fs1 →
    (is_dir fs q = true → is_dir (shutil_copy src (PathOf dst) fs1).1 q = true)
    ∧ (is_file fs q = true → is_file (shutil_copy src (PathOf dst) fs1).1 q = true)) as H.
  { intros fs1 Hsub. split; intros Hq.
    - apply shutil_copy_is_dir. by eapply is_dir_weaken.
    - apply shutil_copy_is_file. by eapply is_file_weaken. }
  destruct create; simpl; [|by apply H].
  pose proof (mkdir_parents_subseteq (parent (PathOf dst)) fs) as Hsub.
  unfold make_directory.
  destruct (mkdir_parents _ fs) as [fs1 [[]|e]]; simpl in *; [by apply H|].
  split; intros Hq; [by eapply is_dir_weaken|by eapply is_file_weaken].
Qed.

End files.

(** ** Paths below paths *)

Section below.
Implicit Types (fs : gmap Path node) (p q d a : Path).

Lemma strictly_extends_spec {A} `{EqDecision A} (l k : list A) :
  strictly_extends l k = true ↔ ∃ rel, rel ≠ [] ∧ k = l ++ rel.
Proof.
  revert k. induction l as [|x l IH]; intros [|y k]; simpl.
  - split; [done|]. by intros (rel & Hne & Hk); destruct rel.
  - split; [|done]. intros _. by exists (y :: k).
  - split; [done|]. intros (rel & _ & Hk). done.
  - rewrite andb_true_iff, bool_decide_eq_true, IH. split.
    + intros [-> (rel & Hne & ->)]. eauto.
    + intros (rel & Hne & [= -> ->]). eauto.
Qed.

Lemma below_spec d q :
  below d q = true ↔ root q = root d ∧ ∃ rel, rel ≠ [] ∧ tail q = tail d ++ rel.
Proof.
  unfold below. by rewrite andb_true_iff, bool_decide_eq_true, strictly_extends_spec.
Qed.

Lemma below_irrefl p : below p p = false.
Proof.
  destruct (below p p) eqn:E; [|done].
  apply below_spec in E as (_ & rel & Hne & Hrel).
  apply (f_equal length) in Hrel. rewrite length_app in Hrel.
  destruct rel; [done|]. simpl in Hrel. lia.
Qed.

Lemma below_trans a p q : below a p = true → below p q = true → below a q = true.
Proof.
  rewrite !below_spec. intros (Hr1 & r1 & Hn1 & H1) (Hr2 & r2 & Hn2 & H2).
  split; [congruence|]. exists (r1 ++ r2). split.
  - by destruct r1.
  - rewrite H2, H1. by rewrite <-(assoc_L (++)).
Qed.

Lemma below_asym p q : below p q = true → below q p = false.
Proof.
  intros H. destruct (below q p) eqn:E; [|done].
  pose proof (below_trans _ _ _ H E) as Hpp. by rewrite below_irrefl in Hpp.
Qed.

Lemma below_relative d p :
  below d p = true → relative_to d p ≠ [] ∧ tail p = tail d ++ relative_to d p.
Proof.
  intros (_ & rel & Hne & Hrel)%below_spec. unfold relative_to.
  rewrite Hrel, drop_app_length. done.
Qed.

(** The directories above [p]: the paths with components that [p] lies below. *)
Lemma elem_of_lineage_parent a p :
  a ∈ lineage (parent p) ↔ tail a ≠ [] ∧ below a p = true.
Proof.
  unfold lineage, parent. simpl. rewrite list_elem_of_fmap. split.
  - intros (k & -> & Hk). simpl. apply elem_of_prefixes in Hk as [Hne [k' Hk']].
    split; [done|]. apply below_spec. simpl. split; [done|].
    destruct (decide (tail p = [])) as [Hp|Hp].
    { rewrite Hp in Hk'. simpl in Hk'. by destruct k. }
    destruct (exists_last Hp) as (t' & x & Ht). rewrite Ht in *.
    rewrite removelast_last in Hk'. exists (k' ++ [x]). split; [by destruct k'|].
    rewrite Hk'. by rewrite <-(assoc_L (++)).
  - intros [Hne (Hr & rel & Hrel & Ht)%below_spec].
    exists (tail a). split; [destruct a; simpl in *; congruence|].
    apply elem_of_prefixes. split; [done|].
    destruct (exists_last Hrel) as (rel' & x & ->).
    rewrite Ht, (assoc_L (++)), removelast_last. by exists rel'.
Qed.

Lemma elem_of_lineage a p :
  a ∈ lineage p ↔ tail a ≠ [] ∧ (a = p ∨ below a p = true).
Proof.
  destruct (decide (tail p = [])) as [Hp|Hp].
  - unfold lineage. rewrite Hp. simpl. split; [by intros ?%elem_of_nil|].
    intros [Hne [->|Hb]]; [done|].
    apply below_spec in Hb as (_ & rel & Hrel & Ht). rewrite Hp in Ht.
    symmetry in Ht. apply app_eq_nil in Ht as [? ?]. done.
  - rewrite lineage_parent by done. rewrite elem_of_app, list_elem_of_singleton.
    rewrite elem_of_lineage_parent. split.
    + intros [[? ?]| ->]; auto.
    + intros [Hne [->|Hb]]; auto.
Qed.

Lemma well_formed_lineage fs p :
  well_formed fs → is_dir fs p = true → ∀ a, a ∈ lineage p → is_dir fs a = true.
Proof.
  intros Hwf Hd a Ha. destruct (decide (tail p = [])) as [Hp|Hp].
  { unfold lineage in Ha. rewrite Hp in Ha. by apply elem_of_nil in Ha. }
  rewrite lineage_parent in Ha by done. apply elem_of_app in Ha as [Ha|Ha].
  - apply (Hwf p); [|done]. unfold is_dir in Hd. rewrite node_at_lookup in Hd by done.
    destruct (fs !! p); [eauto|done].
  - apply list_elem_of_singleton in Ha. by subst.
Qed.

Lemma well_formed_check_ok fs : well_formed_check fs = true → well_formed fs.
Proof.
  unfold well_formed_check. rewrite forallb_forall. intros H q [n Hq].
  assert (In q (map_to_list fs).*1) as Hin.
  { apply list_elem_of_In, list_elem_of_fmap. exists (q, n). split; [done|].
    by apply elem_of_map_to_list. }
  apply H in Hin. apply andb_prop in Hin as [H1 H2]. split.
  - apply negb_true_iff, bool_decide_eq_false in H1. done.
  - rewrite forallb_forall in H2. intros a Ha. apply H2. by apply list_elem_of_In.
Qed.

End below.

(** ** [remove_file] and [remove_directory] *)

Section removal.
Implicit Types (fs : gmap Path node) (p q d a src : Path).

Lemma no_file_above fs p :
  well_formed fs → is_dir fs (parent p) = true →
  existsb (is_file fs) (lineage (parent p)) = false.
Proof.
  intros Hwf Hd. apply existsb_is_file_false_2. intros a Ha.
  pose proof (well_formed_lineage _ _ Hwf Hd a Ha) as H.
  unfold is_dir, is_file in *. by destruct (node_at fs a) as [[]|].
Qed.

(** X9.  In a well-formed filesystem, copying a regular file to a
    destination that does not exist, in an existing directory, and removing
    the destination with [remove_file] gives back the filesystem one
    started from. *)
Theorem copy_file_then_remove_file fs src dst b :
  well_formed fs →
  node_at fs src = Some (File b) →
  exists_ fs (PathOf dst) = false →
  is_dir fs (parent (PathOf dst)) = true →
  (copy_file src dst false;; remove_file (PathOf dst)) fs = (fs, Ok tt).
Proof.
  intros Hwf Hs He Hp. set (d := PathOf dst) in *.
  assert (is_dir fs d = false) as Hd.
  { unfold exists_, is_dir in *. by destruct (node_at fs d). }
  pose proof (is_dir_false_tail _ _ Hd) as Ht.
  assert (fs !! d = None) as Hnone.
  { unfold exists_ in He. rewrite node_at_lookup in He by done. by destruct (fs !! d). }
  assert (src ≠ d) as Hne.
  { intros ->. unfold exists_ in He. by rewrite Hs in He. }
  unfold copy_file, remove_file. fold d. io_unfold.
  rewrite (shutil_copy_onto fs src d b) by done.
  unfold os_remove.
  assert (existsb (is_file (<[d:=File b]> fs)) (lineage (parent d)) = false) as ->.
  { apply existsb_is_file_false_2. intros a Ha.
    pose proof (existsb_is_file_false _ _ (no_file_above _ _ Hwf Hp) a Ha) as Hf.
    unfold is_file, node_at in *. destruct (tail a); [done|].
    rewrite lookup_insert_ne; [done|]. intros <-. by apply (not_in_lineage_parent d). }
  rewrite node_at_lookup by done. rewrite lookup_insert_eq.
  f_equal. rewrite delete_insert_eq. by apply delete_id.
Qed.

(** X10.  [remove_file] touches no path but the one it is given; on a path
    that is not a regular file (a directory, a missing path) it raises and
    changes nothing; when it returns, the path was a regular file and is
    gone. *)
Theorem remove_file_only_that_file fs p :
  (∀ q, q ≠ p → (remove_file p fs).1 !! q = fs !! q)
  ∧ (is_file fs p = false → ∃ e, remove_file p fs = (fs, Raise e))
  ∧ ((remove_file p fs).2 = Ok tt →
       is_file fs p = true ∧ (remove_file p fs).1 !! p = None).
Proof.
  unfold remove_file, os_remove.
  destruct (existsb (is_file fs) (lineage (parent p))); simpl.
  { split_and!; [done|eauto|done]. }
  destruct (node_at fs p) as [[b|]|] eqn:Hn; simpl.
  - split_and!.
    + intros q Hq. by rewrite lookup_delete_ne.
    + unfold is_file. by rewrite Hn.
    + intros _. unfold is_file. rewrite Hn. split; [done|]. apply lookup_delete_eq.
  - split_and!; [done|eauto|done].
  - split_and!; [done|eauto|done].
Qed.

Lemma lookup_emptied fs p q :
  filter (λ kv : Path * node, below p kv.1 = false) fs !! q =
  if below p q then None else fs !! q.
Proof.
  destruct (below p q) eqn:Hb.
  - apply map_lookup_filter_None. right. intros n _. simpl. by rewrite Hb.
  - destruct (fs !! q) as [n|] eqn:Hq.
    + apply map_lookup_filter_Some. done.
    + apply map_lookup_filter_None. by left.
Qed.

Lemma rmtree_effect fs p :
  is_dir fs p = true → tail p ≠ [] →
  existsb (is_file fs) (lineage (parent p)) = false →
  ∃ fs', remove_directory p fs = (fs', Removed)
       ∧ ∀ q, fs' !! q = if bool_decide (q = p) || below p q then None else fs !! q.
Proof.
  intros Hd Ht Hnone. unfold remove_directory, rmtree. rewrite Hnone.
  unfold is_dir in Hd. destruct (node_at fs p) as [[]|]; try done.
  destruct (tail p) eqn:E; [done|]. eexists. split; [done|].
  intros q. case_bool_decide as Hq; simpl.
  - subst q. apply lookup_delete_eq.
  - rewrite lookup_delete_ne by done. apply lookup_emptied.
Qed.

(** X11.  On a directory with at least one component and no regular file
    above it, [remove_directory] returns, the directory and everything
    below it are gone, and every other path is as it was. *)
Theorem remove_directory_removes_subtree fs p :
  is_dir fs p = true → tail p ≠ [] →
  existsb (is_file fs) (lineage (parent p)) = false →
  ∃ fs', remove_directory p fs = (fs', Removed)
       ∧ ∀ q, fs' !! q = if bool_decide (q = p) || below p q then None else fs !! q.
Proof. apply rmtree_effect. Qed.

(** X12.  On a path that is not a directory (a regular file, a missing
    path) [remove_directory] raises one of the listed exceptions and
    changes nothing. *)
Theorem remove_directory_refuses fs p :
  is_dir fs p = false → ∃ e, remove_directory p fs = (fs, Failed e).
Proof.
  intros Hd. unfold remove_directory, rmtree.
  destruct (existsb (is_file fs) (lineage (parent p))); [eauto|].
  unfold is_dir in Hd. destruct (node_at fs p) as [[]|]; try done; eauto.
Qed.

(** X13.  In a well-formed filesystem, [remove_directory] followed by
    [make_directory] on the same directory empties it: both calls succeed,
    everything below the directory is gone, and every other path, the
    directory itself included, is as it was. *)
Theorem remove_directory_then_make_directory fs p :
  well_formed fs → is_dir fs p = true → tail p ≠ [] →
  ∃ fs1 fs', remove_directory p fs = (fs1, Removed)
           ∧ make_directory p fs1 = (fs', Ok tt)
           ∧ ∀ q, fs' !! q = if below p q then None else fs !! q.
Proof.
  intros Hwf Hd Ht.
  assert (fs !! p = Some Dir) as Hp.
  { unfold is_dir in Hd. rewrite node_at_lookup in Hd by done.
    by destruct (fs !! p) as [[]|]. }
  assert (∀ a, a ∈ lineage (parent p) → fs !! a = Some Dir) as Habove.
  { intros a Ha. destruct (Hwf p (mk_is_Some _ _ Hp)) as [_ H].
    specialize (H a Ha). unfold is_dir in H.
    rewrite node_at_lookup in H by (by eapply lineage_nonempty).
    by destruct (fs !! a) as [[]|]. }
  assert (existsb (is_file fs) (lineage (parent p)) = false) as Hnone.
  { apply existsb_is_file_false_2. intros a Ha. unfold is_file.
    rewrite node_at_lookup by (by eapply lineage_nonempty). by rewrite (Habove a Ha). }
  destruct (rmtree_effect fs p Hd Ht Hnone) as (fs1 & Hrm & Hfs1).
  exists fs1.
  assert (existsb (is_file fs1) (lineage p) = false) as Hnone1.
  { apply existsb_is_file_false_2. intros a Ha. unfold is_file.
    rewrite node_at_lookup by (by eapply lineage_nonempty). rewrite Hfs1.
    destruct (bool_decide (a = p) || below p a); [done|].
    rewrite lineage_parent in Ha by done. apply elem_of_app in Ha as [Ha|Ha].
    - by rewrite (Habove a Ha).
    - apply list_elem_of_singleton in Ha. subst. by rewrite Hp. }
  destruct (mkdir_parents_effect fs1 p Hnone1) as (fs' & Hm & _ & Hlin & Hold & Hframe).
  exists fs'. split; [done|]. split; [done|].
  intros q. destruct (decide (q ∈ lineage p)) as [Hq|Hq].
  - rewrite (Hlin q Hq). apply elem_of_lineage in Hq as [Hne [->|Hb]].
    + by rewrite below_irrefl.
    + rewrite (below_asym _ _ Hb). symmetry. apply Habove.
      by apply elem_of_lineage_parent.
  - rewrite (Hframe q Hq), Hfs1.
    assert (q ≠ p) as Hqp. { intros ->. apply Hq. by apply lineage_self. }
    by rewrite bool_decide_false.
Qed.

End removal.

(** ** More on [get_files_list] and on what a copy keeps *)

Section listing_more.
Implicit Types (fs : gmap Path node) (p q d a src : Path).

Lemma glob_all_NoDup fs d : NoDup (glob_all fs d).
Proof. unfold glob_all. apply NoDup_filter, NoDup_fst_map_to_list. Qed.










End listing_more.

Section never_deletes.
Implicit Types (fs : gmap Path node) (p q d a : Path).

Global Instance kinds_kept_preorder : PreOrder kinds_kept.
Proof.
  split; [by intros fs q|]. intros a b c Hab Hbc q.
  destruct (Hab q), (Hbc q). split; auto.
Qed.

Lemma subseteq_kinds_kept fs fs' : fs ⊆ fs' → kinds_kept fs fs'.
Proof. intros Hsub q. split; [by apply is_dir_weaken|by apply is_file_weaken]. Qed.

Lemma copy_one_kinds_kept src_prefix dst p fs :
  kinds_kept fs (copy_one src_prefix dst p fs).1.
Proof.
  unfold copy_one, make_directory. io_unfold.
  pose proof (mkdir_parents_subseteq (parent (dst_file_of src_prefix dst p)) fs) as Hsub.
  destruct (mkdir_parents _ fs) as [fs1 [[]|e]]; simpl in *;
    [|by apply subseteq_kinds_kept].
  etransitivity; [by apply subseteq_kinds_kept|].
  destruct (is_file fs1 p); [|done].
  intros q. split; intros Hq.
  - pose proof (shutil_copy_is_dir p (dst_file_of src_prefix dst p) fs1 q Hq) as H.
    by destruct (shutil_copy _ _ fs1) as [fs2 [[]|e]].
  - pose proof (shutil_copy_is_file p (dst_file_of src_prefix dst p) fs1 q Hq) as H.
    by destruct (shutil_copy _ _ fs1) as [fs2 [[]|e]].
Qed.

Lemma for_each_kinds_kept {A} (body : A → M unit) l fs :
  (∀ x fs, kinds_kept fs (body x fs).1) → kinds_kept fs (for_each l body fs).1.
Proof.
  intros Hbody. revert fs. induction l as [|x l IH]; intros fs; simpl; [done|].
  io_unfold. pose proof (Hbody x fs) as Hx.
  destruct (body x fs) as [fs1 [[]|e]]; simpl in *; [|done].
  etransitivity; [exact Hx|apply IH].
Qed.

(** X17.  Whatever its arguments and whether it succeeds or raises midway,
    [copy_files_to_directory] removes nothing: a directory stays a directory
    and a regular file stays a regular file (there is no rollback, and
    nothing is ever deleted). *)
Theorem copy_files_to_directory_keeps_entries fs src dst create q :
  (is_dir fs q = true →
     is_dir (copy_files_to_directory src dst create fs).1 q = true)
  ∧ (is_file fs q = true →
     is_file (copy_files_to_directory src dst create fs).1 q = true).
Proof.
  enough (kinds_kept fs (copy_files_to_directory src dst create fs).1) as H by apply H.
  rewrite copy_unfold. destruct (resolve_source src fs).2 as [[[[pre l]|] txt]|e]; try done.
  io_unfold. pose proof (check_destination_subseteq (PathOf dst) create fs) as Hsub.
  destruct (check_destination (PathOf dst) create fs) as [fs1 [[]|e]]; simpl in *;
    [|by apply subseteq_kinds_kept].
  etransitivity; [by apply subseteq_kinds_kept|].
  apply for_each_kinds_kept. intros x fs2. apply copy_one_kinds_kept.
Qed.

(** X18.  In a well-formed filesystem, when the destination exists as a
    directory, the flag [create_directory] makes no difference to
    [copy_files_to_directory]. *)
Theorem create_directory_irrelevant_when_present fs src dst :
  well_formed fs → is_dir fs (PathOf dst) = true →
  copy_files_to_directory src dst true fs = copy_files_to_directory src dst false fs.
Proof.
  intros Hwf Hd. rewrite !copy_unfold.
  destruct (resolve_source src fs).2 as [[[[pre l]|] txt]|e]; try done.
  assert (check_destination (PathOf dst) true fs = check_destination (PathOf dst) false fs)
    as Hc; [|io_unfold; by rewrite Hc].
  unfold check_destination. io_unfold. case_bool_decide; [done|].
  unfold make_directory. rewrite mkdir_parents_ok.
  - rewrite ensure_dirs_present; [done|]. intros a Ha.
    pose proof (well_formed_lineage _ _ Hwf Hd a Ha) as Hl. unfold is_dir in Hl.
    rewrite node_at_lookup in Hl by (by eapply lineage_nonempty).
    destruct (fs !! a); [eauto|done].
  - intros a Ha. pose proof (well_formed_lineage _ _ Hwf Hd a Ha) as Hl.
    unfold is_dir, is_file in *. by destruct (node_at fs a) as [[]|].
Qed.

End never_deletes.

(** ** The text of the entries below a directory *)

Section rebasing.
Implicit Types (fs : gmap Path node) (p q d e : Path).

Lemma app_assoc_string (a b c : string) : (a +:+ b) +:+ c = a +:+ (b +:+ c).
Proof. induction a as [|x a IH]; [done|]. rewrite !app_String. by rewrite IH. Qed.

Lemma concat_app (l1 l2 : list string) :
  l1 ≠ [] → l2 ≠ [] →
  String.concat "/" (l1 ++ l2) =
    String.concat "/" l1 +:+ String "/" (String.concat "/" l2).
Proof.
  induction l1 as [|c l1 IH]; [done|]. intros _ Hl2.
  destruct l1 as [|c' l1].
  - simpl. destruct l2; [done|]. done.
  - change (String.concat "/" ((c :: c' :: l1) ++ l2))
      with (c +:+ String "/" (String.concat "/" ((c' :: l1) ++ l2))).
    rewrite IH by done.
    change (String.concat "/" (c :: c' :: l1))
      with (c +:+ String "/" (String.concat "/" (c' :: l1))).
    rewrite app_assoc_string. by rewrite app_String.
Qed.

Lemma str_components p :
  tail p ≠ [] → str p = root p +:+ String.concat "/" (tail p).
Proof. unfold str. intros H. destruct (root p), (tail p); done. Qed.

(** The text of a clean path starts with no separator after its root. *)
Lemma concat_clean_head cs :
  cs ≠ [] → Forall clean_component cs →
  ∃ a rest, String.concat "/" cs = String a rest ∧ Ascii.eqb a "/" = false.
Proof.
  intros Hne Hcs. destruct cs as [|c cs]; [done|].
  apply Forall_cons in Hcs as [(Hsplit & Hc & _) _].
  destruct c as [|a c]; [done|].
  simpl in Hsplit. destruct (Ascii.eqb a "/") eqn:Ea; [done|].
  exists a. destruct cs as [|c' cs]; simpl; eauto.
Qed.

Lemma PathOf_root_concat r cs :
  r = EmptyString ∨ r = "/"%string ∨ r = "//"%string →
  cs ≠ [] → Forall clean_component cs →
  PathOf (r +:+ String.concat "/" cs) = mkPath r cs.
Proof.
  intros Hr Hne Hcs.
  assert (components (String.concat "/" cs) = cs) as Hcomp.
  { apply components_concat. intros c Hc. by eapply Forall_forall in Hcs. }
  destruct (concat_clean_head cs Hne Hcs) as (a & rest & Hs & Ha).
  unfold PathOf. destruct Hr as [-> | [-> | ->]].
  - rewrite app_empty. rewrite Hs in *.
    replace (splitroot (String a rest)) with (EmptyString, String a rest); [by rewrite Hcomp|].
    simpl. destruct a as [[] [] [] [] [] [] [] []]; try done.
  - change ("/" +:+ String.concat "/" cs) with (String "/" (String.concat "/" cs)).
    rewrite Hs in *.
    replace (splitroot (String "/" (String a rest))) with ("/"%string, String a rest);
      [by rewrite Hcomp|].
    simpl. destruct a as [[] [] [] [] [] [] [] []]; try done.
  - change ("//" +:+ String.concat "/" cs)
      with (String "/" (String "/" (String.concat "/" cs))).
    rewrite Hs in *.
    replace (splitroot (String "/" (String "/" (String a rest))))
      with ("//"%string, String a rest); [by rewrite Hcomp|].
    simpl. destruct a as [[] [] [] [] [] [] [] []]; try done.
Qed.

Lemma PathOf_clean s : clean_path (PathOf s).
Proof.
  unfold clean_path. split.
  - unfold PathOf. destruct (splitroot s) as [r rel] eqn:E. simpl.
    unfold splitroot in E. repeat case_match; simplify_eq; auto.
  - rewrite tail_PathOf. apply Forall_forall. intros c Hc.
    apply elem_of_components in Hc as (Hs & ? & ?). split_and!; try done.
    by eapply split_piece.
Qed.

Lemma contains_occurs old s : Str.occurs old s → contains old s = true.
Proof.
  intros (pre & post & ->). induction pre as [|c pre IH].
  - rewrite app_empty. destruct (old +:+ post) eqn:E; simpl;
      rewrite <-E, startswith_app; done.
  - rewrite app_String. simpl. rewrite IH. apply orb_true_r.
Qed.

Lemma str_nonempty p : clean_path p → tail p ≠ [] → str p ≠ EmptyString.
Proof.
  intros [_ Hc] Ht. rewrite str_components by done.
  destruct (concat_clean_head _ Ht Hc) as (a & rest & -> & _).
  by destruct (root p).
Qed.

(** The text of an entry below [d]: the text of [d], a separator, and the
    components that follow. *)
Lemma str_below d p :
  tail d ≠ [] → below d p = true →
  str p = str d +:+ String "/" (String.concat "/" (relative_to d p)).
Proof.
  intros Hd Hb. pose proof (below_relative _ _ Hb) as [Hne Ht].
  apply below_spec in Hb as [Hr _].
  rewrite (str_components p), (str_components d); try done.
  - rewrite Hr, Ht, concat_app by done. by rewrite app_assoc_string.
  - rewrite Ht. by destruct (tail d).
Qed.

(** Where the loop sends an entry below [d] when the text of [d] does not
    come back after the start of the text of the entry. *)
Lemma dst_file_of_rebase d e p :
  clean_path d → tail d ≠ [] →
  clean_path e → tail e ≠ [] →
  below d p = true → Forall clean_component (relative_to d p) →
  contains (str d) (String "/" (String.concat "/" (relative_to d p))) = false →
  dst_file_of (str d) e p = rebase d e p.
Proof.
  intros Hcd Hd [Hre Hce] He Hb Hrel Hno.
  pose proof (below_relative _ _ Hb) as [Hne _].
  rewrite (dst_file_of_leading (str d)
             (String "/" (String.concat "/" (relative_to d p))) e p
             (str_nonempty d Hcd Hd)).
  - rewrite (str_components e) by done. rewrite app_assoc_string.
    rewrite <-concat_app by done. rewrite PathOf_root_concat; try done.
    + by destruct (tail e).
    + by apply Forall_app.
  - intros Hocc. apply contains_occurs in Hocc. congruence.
  - by apply str_below.
Qed.

End rebasing.

Section rebase_facts.
Implicit Types (fs : gmap Path node) (p q d e a b : Path).

Lemma path_eq p q : root p = root q → tail p = tail q → p = q.
Proof. destruct p, q. simpl. by intros -> ->. Qed.

Lemma below_prefix d q :
  below d q = true ↔ root q = root d ∧ tail d `prefix_of` tail q ∧ tail d ≠ tail q.
Proof.
  rewrite below_spec. split.
  - intros (Hr & rel & Hne & Ht). split_and!; [done|by exists rel|].
    intros Heq. rewrite Heq in Ht.
    apply (f_equal length) in Ht. rewrite length_app in Ht. destruct rel; [done|].
    simpl in Ht. lia.
  - intros (Hr & [rel Ht] & Hne). split; [done|]. exists rel. split; [|done].
    intros ->. by rewrite app_nil_r in Ht.
Qed.

Lemma below_trichotomy a b t :
  below a t = true → below b t = true → a = b ∨ below a b = true ∨ below b a = true.
Proof.
  rewrite !below_prefix. intros (Hra & Hpa & _) (Hrb & Hpb & _).
  destruct (decide (tail a = tail b)) as [Heq|Hne].
  { left. apply path_eq; congruence. }
  right. destruct (prefix_weak_total _ _ _ Hpa Hpb) as [H|H].
  - left. split_and!; [congruence|done|done].
  - right. split_and!; [congruence|done|congruence].
Qed.

Lemma unrelated_below d e p :
  unrelated d e → below d p = true → below e p = false.
Proof.
  intros (Hne & Hde & Hed) Hd. destruct (below e p) eqn:He; [|done].
  destruct (below_trichotomy _ _ _ Hd He) as [?|[H|H]]; congruence.
Qed.

Lemma below_rebase d e p : below d p = true → below e (rebase d e p) = true.
Proof.
  intros [Hne _]%below_relative. apply below_spec. simpl. eauto.
Qed.

Lemma rebase_inj d e p q :
  below d p = true → below d q = true → rebase d e p = rebase d e q → p = q.
Proof.
  intros Hp Hq [= H]. apply app_inv_head in H.
  pose proof (below_relative _ _ Hp) as [_ Htp].
  pose proof (below_relative _ _ Hq) as [_ Htq].
  apply below_spec in Hp as [Hrp _]. apply below_spec in Hq as [Hrq _].
  apply path_eq; congruence.
Qed.

Lemma rebase_below d e p q :
  below d p = true → below d q = true →
  below (rebase d e p) (rebase d e q) = true → below p q = true.
Proof.
  intros Hp Hq. pose proof (below_relative _ _ Hp) as [_ Htp].
  pose proof (below_relative _ _ Hq) as [_ Htq].
  rewrite !below_spec. simpl. intros (_ & rel & Hne & Hrel). split.
  - apply below_spec in Hp as [-> _]. by apply below_spec in Hq as [-> _].
  - exists rel. split; [done|]. rewrite <-(assoc_L (++)) in Hrel.
    apply app_inv_head in Hrel. rewrite Htq, Hrel, Htp. by rewrite <-(assoc_L (++)).
Qed.

(** A path between [e] and the new place of [p] is the new place of a
    directory above [p]. *)
Lemma between_rebase d e p q :
  below d p = true → below e q = true → below q (rebase d e p) = true →
  ∃ a, below d a = true ∧ below a p = true ∧ q = rebase d e a.
Proof.
  intros Hp Heq Hq. pose proof (below_relative _ _ Hp) as [Hnp Htp].
  apply below_spec in Heq as (Hrq & r1 & Hn1 & Ht1).
  apply below_spec in Hq as (Hrr & r2 & Hn2 & Ht2). simpl in *.
  rewrite Ht1, <-(assoc_L (++)) in Ht2. apply app_inv_head in Ht2.
  exists (mkPath (root d) (tail d ++ r1)).
  assert (relative_to d (mkPath (root d) (tail d ++ r1)) = r1) as Hrel.
  { unfold relative_to. simpl. by rewrite drop_app_length. }
  split_and!.
  - apply below_spec. simpl. eauto.
  - apply below_spec. simpl. split; [by apply below_spec in Hp as [-> _]|].
    exists r2. split; [done|]. rewrite Htp, Ht2. by rewrite <-(assoc_L (++)).
  - unfold rebase. rewrite Hrel. apply path_eq; simpl; congruence.
Qed.

Lemma well_formed_above fs a p :
  well_formed fs → is_Some (fs !! p) → tail a ≠ [] → below a p = true →
  fs !! a = Some Dir.
Proof.
  intros Hwf Hp Ha Hb. destruct (Hwf p Hp) as [_ H].
  specialize (H a). rewrite elem_of_lineage_parent in H. specialize (H (conj Ha Hb)).
  unfold is_dir in H. rewrite node_at_lookup in H by done.
  by destruct (fs !! a) as [[]|].
Qed.

End rebase_facts.

(** ** Copying a tree into an empty directory *)

Section copy_tree.
Variables (fs0 : gmap Path node) (d e : Path) (pre : string).
Hypothesis Hwf : well_formed fs0.
Hypothesis Hun : unrelated d e.
Hypothesis He : is_dir fs0 e = true.
Hypothesis Het : tail e ≠ [].
Hypothesis Hempty : ∀ q, below e q = true → fs0 !! q = None.

Local Abbreviation entry := (tree_entry fs0 d e pre).

Lemma above_destination a :
  tail a ≠ [] → a = e ∨ below a e = true → fs0 !! a = Some Dir.
Proof using Hwf He Het.
  assert (fs0 !! e = Some Dir) as Hed.
  { unfold is_dir in He. rewrite node_at_lookup in He by done.
    by destruct (fs0 !! e) as [[]|]. }
  intros Ha [->|Hb]; [done|].
  eapply well_formed_above; [done| |done|done]. by rewrite Hed.
Qed.

Lemma start_copied : tree_copied fs0 d e [] fs0.
Proof using Hempty.
  split_and!.
  - done.
  - intros q n Hq Hn. by rewrite (Hempty q Hq) in Hn.
  - intros p b Hp. by apply elem_of_nil in Hp.
  - intros p q Hp. by apply elem_of_nil in Hp.
Qed.

Lemma entry_not_below p : entry p → below e p = false.
Proof using Hun. intros (Hp & _). by eapply unrelated_below. Qed.

Lemma step_copied done cur p :
  Forall entry done → tree_copied fs0 d e done cur → entry p → p ∉ done →
  ∃ cur', copy_one pre e p cur = (cur', Ok tt) ∧ tree_copied fs0 d e (p :: done) cur'.
Proof using Hwf Hun He Het Hempty.
  intros Hdone (Hframe & Hnew & Hfiles & Hdirs) Hp Hfresh.
  pose proof Hp as (Hbp & Hsp & Htp).
  set (t := rebase d e p) in *.
  assert (below e t = true) as Het' by (by apply below_rebase).
  assert (tail t ≠ []) as Htt by (by eapply below_nonempty).
  (* the directories above the target hold no file *)
  assert (∀ a, a ∈ lineage (parent t) → is_file cur a = false) as Hclear.
  { intros a [Ha Hat]%elem_of_lineage_parent.
    unfold is_file. rewrite node_at_lookup by done.
    destruct (below_trichotomy _ _ _ Hat Het') as [->|[Hae|Hea]].
    - rewrite Hframe by apply below_irrefl.
      by rewrite (above_destination e Het (or_introl eq_refl)).
    - rewrite Hframe by (by apply below_asym).
      by rewrite (above_destination a Ha (or_intror Hae)).
    - destruct (cur !! a) as [n|] eqn:Hn; [|done].
      destruct (Hnew a n Hea Hn) as (p' & Hp' & [(-> & b & Hb & ->)|(-> & _)]); [|done].
      exfalso. apply (proj1 (Forall_forall _ _) Hdone) in Hp' as (Hbp' & _).
      pose proof (rebase_below _ _ _ _ Hbp' Hbp Hat) as Hpp.
      rewrite (well_formed_above fs0 p' p Hwf Hsp) in Hb; [done| |done].
      by eapply below_nonempty. }
  pose proof (mkdir_parents_ok _ _ Hclear) as Hm.
  set (cur1 := foldl ensure_dir cur (lineage (parent t))) in *.
  assert (∀ q, cur1 !! q = match cur !! q with
                           | Some n => Some n
                           | None => if bool_decide (q ∈ lineage (parent t))
                                     then Some Dir else None
                           end) as Hcur1 by apply ensure_dirs_lookup.
  (* what the new directories are *)
  assert (∀ q, below e q = false → cur1 !! q = fs0 !! q) as Hframe1.
  { intros q Hq. rewrite Hcur1, (Hframe q Hq).
    destruct (fs0 !! q) eqn:Hq0; [done|]. case_bool_decide as Hl; [|done].
    apply elem_of_lineage_parent in Hl as [Ha Hat].
    destruct (below_trichotomy _ _ _ Hat Het') as [->|[Hae|Hea]]; [| |congruence].
    - by rewrite (above_destination e Het (or_introl eq_refl)) in Hq0.
    - by rewrite (above_destination q Ha (or_intror Hae)) in Hq0. }
  assert (∀ q n, below e q = true → cur1 !! q = Some n →
            ∃ p', p' ∈ p :: done
              ∧ ((q = rebase d e p' ∧ ∃ b, fs0 !! p' = Some (File b) ∧ n = File b
                  ∧ p' ∈ done)
                 ∨ (n = Dir ∧ below q (rebase d e p') = true))) as Hnew1.
  { intros q n Hq. rewrite Hcur1. destruct (cur !! q) as [n'|] eqn:Hn.
    - intros [= <-]. destruct (Hnew q n' Hq Hn) as (p' & Hp' & [(-> & b & Hb & ->)|H]).
      + exists p'. split; [by apply elem_of_cons; right|]. left. eauto.
      + exists p'. split; [by apply elem_of_cons; right|]. by right.
    - case_bool_decide as Hl; [|done]. intros [= <-].
      apply elem_of_lineage_parent in Hl as [_ Hat].
      exists p. split; [by apply elem_of_cons; left|]. by right. }
  assert (∀ p' q, p' ∈ p :: done → below e q = true →
            below q (rebase d e p') = true → cur1 !! q = Some Dir) as Hdirs1.
  { intros p' q [->|Hp']%elem_of_cons Hq Hqt.
    - rewrite Hcur1. destruct (cur !! q) as [n|] eqn:Hn.
      + destruct (Hnew q n Hq Hn) as (p' & Hp' & [(-> & b & Hb & ->)|(-> & _)]); [|done].
        exfalso. apply (proj1 (Forall_forall _ _) Hdone) in Hp' as (Hbp' & _).
        pose proof (rebase_below _ _ _ _ Hbp' Hbp Hqt) as Hpp.
        rewrite (well_formed_above fs0 p' p Hwf Hsp) in Hb; [done| |done].
        by eapply below_nonempty.
      + rewrite bool_decide_true; [done|]. apply elem_of_lineage_parent.
        split; [by eapply below_nonempty|done].
    - rewrite Hcur1. by rewrite (Hdirs p' q Hp' Hq Hqt). }
  assert (∀ p' b, p' ∈ done → fs0 !! p' = Some (File b) →
            cur1 !! rebase d e p' = Some (File b)) as Hfiles1.
  { intros p' b Hp' Hb. rewrite Hcur1. by rewrite (Hfiles p' b Hp' Hb). }
  (* the entry itself *)
  assert (is_file cur1 p = is_file fs0 p) as Hfp.
  { unfold is_file. rewrite !node_at_lookup by (by eapply below_nonempty).
    by rewrite (Hframe1 p (entry_not_below p Hp)). }
  unfold copy_one, make_directory. rewrite Htp. fold t. io_unfold. rewrite Hm. fold cur1.
  destruct Hsp as [[b|] Hb].
  - (* a file: its bytes go to the target *)
    assert (cur1 !! t = None) as Htnone.
    { destruct (cur1 !! t) as [n|] eqn:Hn; [|done]. exfalso.
      destruct (Hnew1 t n Het' Hn) as (p' & _ & [(Heq & b' & Hb' & _ & Hp')|(Hnd & Hbt)]).
      - apply (proj1 (Forall_forall _ _) Hdone) in Hp' as Hent. destruct Hent as (Hbp' & _).
        apply (rebase_inj d e p p' Hbp Hbp') in Heq. by subst.
      - (* [t] would be a directory above another target *)
        assert (∃ p'', below d p'' = true ∧ is_Some (fs0 !! p'')
                       ∧ below t (rebase d e p'') = true) as (p'' & Hbp'' & Hsp'' & Hbt'').
        { rewrite Hcur1 in Hn. destruct (cur !! t) as [n'|] eqn:Hn'.
          - injection Hn as ->. subst n.
            destruct (Hnew t Dir Het' Hn') as (p'' & Hp'' & [(_ & b' & _ & ?)|(_ & H)]);
              [done|].
            apply (proj1 (Forall_forall _ _) Hdone) in Hp'' as (? & ? & _). eauto.
          - case_bool_decide as Hl; [|done].
            by apply not_in_lineage_parent in Hl. }
        pose proof (rebase_below _ _ _ _ Hbp Hbp'' Hbt'') as Hpp.
        rewrite (well_formed_above fs0 p p'' Hwf Hsp'') in Hb; [done| |done].
        by eapply below_nonempty. }
    assert (is_file cur1 p = true) as ->.
    { rewrite Hfp. unfold is_file. rewrite node_at_lookup by (by eapply below_nonempty).
      by rewrite Hb. }
    assert (p ≠ t) as Hpt.
    { intros Heq. pose proof (entry_not_below p Hp) as H. rewrite Heq in H. congruence. }
    rewrite (shutil_copy_onto cur1 p t b).
    + eexists. split; [done|]. split_and!.
      * intros q Hq. rewrite lookup_insert_ne by (intros <-; congruence). by apply Hframe1.
      * intros q n Hq. destruct (decide (t = q)) as [<-|Hne].
        -- rewrite lookup_insert_eq. intros [= <-]. exists p.
           split; [by apply elem_of_cons; left|]. left. eauto.
        -- rewrite lookup_insert_ne by done. intros Hn.
           destruct (Hnew1 q n Hq Hn) as (p' & Hp' & [(-> & b' & Hb' & -> & _)|H]).
           ++ exists p'. split; [done|]. left. eauto.
           ++ exists p'. split; [done|]. by right.
      * intros p' b' [->|Hp']%elem_of_cons Hb'.
        -- rewrite lookup_insert_eq. congruence.
        -- rewrite lookup_insert_ne; [by apply Hfiles1|]. intros Heq.
           apply (proj1 (Forall_forall _ _) Hdone) in Hp' as Hent. destruct Hent as (Hbp' & _).
           apply (rebase_inj d e p p' Hbp Hbp') in Heq. by subst.
      * intros p' q Hp' Hq Hqt. rewrite lookup_insert_ne; [by eapply Hdirs1|].
        intros <-. rewrite (Hdirs1 p' t Hp' Hq Hqt) in Htnone. done.
    + rewrite node_at_lookup by (by eapply below_nonempty).
      by rewrite (Hframe1 p (entry_not_below p Hp)).
    + unfold is_dir. rewrite node_at_lookup by done. by rewrite Htnone.
    + done.
    + by apply (mkdir_parents_is_dir _ _ _ Hm).
  - (* a directory: nothing more *)
    assert (is_file cur1 p = false) as ->.
    { rewrite Hfp. unfold is_file. rewrite node_at_lookup by (by eapply below_nonempty).
      by rewrite Hb. }
    eexists. split; [done|]. split_and!.
    + done.
    + intros q n Hq Hn.
      destruct (Hnew1 q n Hq Hn) as (p' & Hp' & [(-> & b' & Hb' & -> & _)|H]).
      * exists p'. split; [done|]. left. eauto.
      * exists p'. split; [done|]. by right.
    + intros p' b' [->|Hp']%elem_of_cons Hb'; [congruence|by apply Hfiles1].
    + done.
Qed.

Lemma loop_copied todo done cur :
  NoDup todo → Forall entry todo → Forall entry done →
  (∀ p, p ∈ todo → p ∉ done) →
  tree_copied fs0 d e done cur →
  ∃ cur', for_each todo (copy_one pre e) cur = (cur', Ok tt)
        ∧ tree_copied fs0 d e (rev todo ++ done) cur'.
Proof using Hwf Hun He Het Hempty.
  revert done cur. induction todo as [|p todo IH]; intros done cur Hnd Htodo Hdone Hdisj Hinv.
  { exists cur. done. }
  apply NoDup_cons in Hnd as [Hp Hnd]. apply Forall_cons in Htodo as [Hent Htodo].
  destruct (step_copied done cur p Hdone Hinv Hent) as (cur1 & Hstep & Hinv1).
  { apply Hdisj. by apply elem_of_cons; left. }
  destruct (IH (p :: done) cur1 Hnd Htodo) as (cur' & Hrun & Hinv'); [| |done|].
  - by apply Forall_cons.
  - intros q Hq [->|Hqd]%elem_of_cons; [done|].
    apply (Hdisj q); [by apply elem_of_cons; right|done].
  - exists cur'. split.
    + simpl. io_unfold. by rewrite Hstep.
    + simpl. by rewrite <-(assoc_L (++)).
Qed.

End copy_tree.

Section whole_copies.
Implicit Types (fs : gmap Path node) (p q d e : Path).

Lemma make_directory_present fs e :
  well_formed fs → is_dir fs e = true → make_directory e fs = (fs, Ok tt).
Proof.
  intros Hwf Hd. unfold make_directory. rewrite mkdir_parents_ok.
  - rewrite ensure_dirs_present; [done|]. intros a Ha.
    pose proof (well_formed_lineage _ _ Hwf Hd a Ha) as Hl. unfold is_dir in Hl.
    rewrite node_at_lookup in Hl by (by eapply lineage_nonempty).
    destruct (fs !! a); [eauto|done].
  - intros a Ha. pose proof (well_formed_lineage _ _ Hwf Hd a Ha) as Hl.
    unfold is_dir, is_file in *. by destruct (node_at fs a) as [[]|].
Qed.

Lemma check_destination_ok fs e create :
  well_formed fs → is_dir fs e = true → suffix e = EmptyString →
  check_destination e create fs = (fs, Ok tt).
Proof.
  intros Hwf Hd Hs. destruct create.
  - apply check_destination_create; [done|]. by apply make_directory_present.
  - apply check_destination_present; [done|]. by apply is_dir_exists.
Qed.

Lemma glob_all_empty fs e :
  glob_all fs e = [] → ∀ q, below e q = true → fs !! q = None.
Proof.
  intros Hg q Hq. destruct (fs !! q) as [n|] eqn:Hn; [|done].
  assert (q ∈ glob_all fs e) as Hin by (apply elem_of_glob_all; eauto).
  rewrite Hg in Hin. by apply elem_of_nil in Hin.
Qed.

(** X20.  A directory copied into an existing, empty directory that is
    neither the source nor above or below it, in a well-formed filesystem,
    when the text of the source does not come back in the rest of the text
    of any entry: the call succeeds; the bytes of every regular file below
    the source are at the same relative path below the destination; every
    directory between the destination and the new place of an entry
    exists; nothing outside the destination has changed; and below the
    destination there is nothing else. *)
Theorem copy_tree_into_empty_directory fs s dst create :
  well_formed fs →
  is_dir fs (PathOf s) = true → tail (PathOf s) ≠ [] →
  is_dir fs (PathOf dst) = true → tail (PathOf dst) ≠ [] →
  suffix (PathOf dst) = EmptyString →
  unrelated (PathOf s) (PathOf dst) →
  glob_all fs (PathOf dst) = [] →
  Forall (λ p, Forall clean_component (relative_to (PathOf s) p)
               ∧ contains (str (PathOf s))
                   (String "/" (String.concat "/" (relative_to (PathOf s) p))) = false)
         (glob_all fs (PathOf s)) →
  ∃ fs', copy_files_to_directory (SrcPath s) dst create fs = (fs', Ok tt)
       ∧ (∀ p b, below (PathOf s) p = true → fs !! p = Some (File b) →
            fs' !! rebase (PathOf s) (PathOf dst) p = Some (File b))
       ∧ (∀ p q, below (PathOf s) p = true → is_Some (fs !! p) →
            below (PathOf dst) q = true →
            below q (rebase (PathOf s) (PathOf dst) p) = true →
            fs' !! q = Some Dir)
       ∧ (∀ q, below (PathOf dst) q = false → fs' !! q = fs !! q)
       ∧ (∀ q n, below (PathOf dst) q = true → fs' !! q = Some n →
            ∃ p, below (PathOf s) p = true
                 ∧ ((q = rebase (PathOf s) (PathOf dst) p ∧ fs !! p = Some n)
                    ∨ (n = Dir ∧ is_Some (fs !! p)
                       ∧ below q (rebase (PathOf s) (PathOf dst) p) = true))).
Proof.
  intros Hwf Hd Hdt He Het Hsuf Hun Hempty Hentries.
  set (d := PathOf s) in *. set (e := PathOf dst) in *.
  rewrite (copy_resolved _ _ _ _ _ _ _ (resolve_source_dir _ _ Hd)).
  fold d e. rewrite (bind_ok _ _ _ _ _ (check_destination_ok fs e create Hwf He Hsuf)).
  assert (Forall (λ p, below d p = true ∧ is_Some (fs !! p)
                       ∧ dst_file_of (str d) e p = rebase d e p) (glob_all fs d)) as Hent.
  { apply Forall_forall. intros p Hp.
    pose proof (proj1 (Forall_forall _ _) Hentries p Hp) as [Hclean Hno].
    apply elem_of_glob_all in Hp as [Hb Hs]. split_and!; [done|done|].
    apply dst_file_of_rebase; try done; apply PathOf_clean. }
  destruct (loop_copied fs d e (str d) Hwf Hun He Het (glob_all_empty _ _ Hempty)
              (glob_all fs d) [] fs (glob_all_NoDup fs d) Hent)
    as (fs' & Hrun & Hframe & Hnew & Hfiles & Hdirs).
  - constructor.
  - intros p _ Hp. by apply elem_of_nil in Hp.
  - apply start_copied. by apply glob_all_empty.
  - exists fs'. split; [done|]. rewrite app_nil_r in *.
    assert (∀ p, p ∈ rev (glob_all fs d) ↔ below d p = true ∧ is_Some (fs !! p)) as Hmem.
    { intros p. rewrite list_elem_of_In, <-in_rev, <-list_elem_of_In.
      apply elem_of_glob_all. }
    split_and!.
    + intros p b Hp Hb. apply Hfiles; [|done]. apply Hmem. eauto.
    + intros p q Hp Hs Hq Hqt. eapply Hdirs; [|done|done]. by apply Hmem.
    + done.
    + intros q n Hq Hn. destruct (Hnew q n Hq Hn) as (p & Hp & H).
      apply Hmem in Hp as [Hbp Hsp]. exists p. split; [done|].
      destruct H as [(-> & b & Hb & ->)|(-> & Hbt)]; [by left|by right].
Qed.

Lemma relative_to_parent p :
  tail p ≠ [] → relative_to (parent p) p = [name p].
Proof.
  intros Hp. unfold relative_to, parent, name. simpl.
  destruct (exists_last Hp) as (t & x & ->).
  rewrite removelast_last, drop_app_length, last_last. done.
Qed.

Lemma below_parent p : tail p ≠ [] → below (parent p) p = true.
Proof.
  intros Hp. apply below_spec. simpl. split; [done|]. exists [name p]. split; [done|].
  unfold name. destruct (exists_last Hp) as (t & x & ->).
  by rewrite removelast_last, last_last.
Qed.

Lemma rebase_parent e p : tail p ≠ [] → rebase (parent p) e p = child e (name p).
Proof.
  intros Hp. unfold rebase, child. rewrite (relative_to_parent p Hp). done.
Qed.

Lemma parent_tail p : tail (parent p) ≠ [] → tail p ≠ [].
Proof. unfold parent. simpl. destruct (tail p); simpl; done. Qed.

Lemma clean_parent p : clean_path p → clean_path (parent p).
Proof.
  intros [Hr Hc]. split; [done|]. simpl.
  destruct (decide (tail p = [])) as [->|Hp]; [done|].
  destruct (exists_last Hp) as (t & x & Ht). rewrite Ht in *.
  rewrite removelast_last. by apply Forall_app in Hc as [? _].
Qed.

Lemma clean_name p : clean_path p → tail p ≠ [] → clean_component (name p).
Proof.
  intros [_ Hc] Hp. unfold name. destruct (exists_last Hp) as (t & x & Ht).
  rewrite Ht in *. rewrite last_last. apply Forall_app in Hc as [_ Hx].
  by inversion Hx.
Qed.

(** Where the loop sends a single file. *)
Lemma dst_file_of_single s e :
  tail (parent (PathOf s)) ≠ [] → clean_path e → tail e ≠ [] →
  contains (str (parent (PathOf s))) (String "/" (name (PathOf s))) = false →
  dst_file_of (str (parent (PathOf s))) e (PathOf s) = child e (name (PathOf s)).
Proof.
  intros Hpt Hce Het Hno. set (p := PathOf s) in *.
  pose proof (parent_tail _ Hpt) as Hp.
  rewrite <-rebase_parent by done.
  apply dst_file_of_rebase; try done.
  - apply clean_parent, PathOf_clean.
  - by apply below_parent.
  - rewrite relative_to_parent by done. constructor; [|constructor].
    apply clean_name; [apply PathOf_clean|done].
  - by rewrite relative_to_parent.
Qed.

Lemma resolve_source_file fs s :
  is_file fs (PathOf s) = true →
  resolve_source (SrcPath s) fs =
    (fs, Ok (Some (str (parent (PathOf s)), [PathOf s]), str (PathOf s))).
Proof. intros Hf. simpl. io_unfold. by rewrite Hf. Qed.

(** X19.  A single regular file that is not directly in the current or the
    root directory, copied into an existing directory with components:
    when the text of the parent of the file does not come back in the
    separator and the name of the file, and the name is free in the
    destination, the call succeeds and the only change is that the
    destination holds the bytes of the file under its name. *)
Theorem copy_single_file fs s dst create b :
  well_formed fs →
  node_at fs (PathOf s) = Some (File b) →
  tail (parent (PathOf s)) ≠ [] →
  is_dir fs (PathOf dst) = true → tail (PathOf dst) ≠ [] →
  suffix (PathOf dst) = EmptyString →
  contains (str (parent (PathOf s))) (String "/" (name (PathOf s))) = false →
  is_dir fs (child (PathOf dst) (name (PathOf s))) = false →
  PathOf s ≠ child (PathOf dst) (name (PathOf s)) →
  copy_files_to_directory (SrcPath s) dst create fs =
    (<[child (PathOf dst) (name (PathOf s)) := File b]> fs, Ok tt).
Proof.
  intros Hwf Hp Hpt He Het Hsuf Hno Ht Hne.
  assert (is_file fs (PathOf s) = true) as Hf by (unfold is_file; by rewrite Hp).
  rewrite (copy_resolved _ _ _ _ _ _ _ (resolve_source_file _ _ Hf)).
  rewrite (bind_ok _ _ _ _ _ (check_destination_ok fs _ create Hwf He Hsuf)).
  simpl. unfold copy_one.
  rewrite dst_file_of_single; [|done|apply PathOf_clean|done|done].
  rewrite parent_child. io_unfold. rewrite (make_directory_present _ _ Hwf He), Hf.
  rewrite (shutil_copy_onto fs _ _ b); try done. by rewrite parent_child.
Qed.

(** X21.  A regular file copied into the directory it is in: the
    destination computed for it is the file itself, [shutil.copy] raises
    [SameFileError], and the filesystem is as it was. *)
Theorem copy_file_onto_itself fs s dst create b :
  well_formed fs →
  node_at fs (PathOf s) = Some (File b) →
  PathOf dst = parent (PathOf s) → tail (PathOf dst) ≠ [] →
  suffix (PathOf dst) = EmptyString →
  contains (str (PathOf dst)) (String "/" (name (PathOf s))) = false →
  copy_files_to_directory (SrcPath s) dst create fs =
    (fs, Raise (SameFileError (str (PathOf s)))).
Proof.
  intros Hwf Hp Hd Het Hsuf Hno.
  assert (is_file fs (PathOf s) = true) as Hf by (unfold is_file; by rewrite Hp).
  assert (tail (PathOf s) ≠ []) as Hpt by (apply parent_tail; by rewrite <-Hd).
  assert (is_dir fs (PathOf dst) = true) as He.
  { rewrite Hd. destruct (Hwf (PathOf s)) as [_ H].
    - unfold node_at in Hp. destruct (tail (PathOf s)); [done|]. by rewrite Hp.
    - apply H. rewrite <-Hd. apply lineage_self. done. }
  assert (child (PathOf dst) (name (PathOf s)) = PathOf s) as Hsame.
  { rewrite Hd. unfold child, parent, name. simpl.
    destruct (exists_last Hpt) as (t & x & Ht). rewrite Ht.
    rewrite removelast_last, last_last. apply path_eq; simpl; congruence. }
  rewrite (copy_resolved _ _ _ _ _ _ _ (resolve_source_file _ _ Hf)).
  rewrite (bind_ok _ _ _ _ _ (check_destination_ok fs _ create Hwf He Hsuf)).
  simpl. unfold copy_one. rewrite Hd in *.
  rewrite dst_file_of_single; [|done|apply clean_parent, PathOf_clean|done|done].
  rewrite Hsame. io_unfold. rewrite (make_directory_present _ _ Hwf He), Hf.
  unfold shutil_copy. rewrite Hp.
  assert (is_dir fs (PathOf s) = false) as ->.
  { unfold is_dir. by rewrite Hp. }
  by rewrite bool_decide_true.
Qed.

End whole_copies.

Section listed.
Implicit Types (fs : gmap Path node) (p q d e : Path).

Lemma commonpath_text l pre :
  commonpath l = Ok pre → tail (PathOf pre) ≠ [] →
  clean_path (PathOf pre) ∧ str (PathOf pre) = pre.
Proof.
  intros Hc Ht. split; [apply PathOf_clean|].
  destruct l as [|x xs]; [done|]. unfold commonpath in Hc.
  destruct (forallb _ xs); [|done]. injection Hc as <-.
  set (cs := common_components x xs) in *.
  assert (Forall clean_component cs) as Hcs.
  { apply Forall_forall. intros c Hc. by eapply common_components_pieces. }
  assert (cs ≠ []) as Hne.
  { intros Heq. apply Ht. rewrite tail_PathOf, prefix_text_components.
    - done.
    - intros c Hc. by eapply common_components_pieces. }
  rewrite PathOf_root_concat; [|by destruct (isabs x); auto|done|done].
  rewrite str_components by done. done.
Qed.

Lemma clean_relative d p : clean_path p → Forall clean_component (relative_to d p).
Proof.
  intros [_ Hc]. unfold relative_to.
  rewrite <-(take_drop (length (tail d)) (tail p)) in Hc.
  by apply Forall_app in Hc as [_ ?].
Qed.

(** X22.  A list of distinct existing paths that all lie below their common
    path, copied into an existing, empty directory that is neither the
    common path nor above or below it, in a well-formed filesystem, when
    the text of the common path does not come back in the rest of the text
    of any entry: the call succeeds; the bytes of every listed regular file
    are at the same path, relative to the common path, below the
    destination; nothing outside the destination has changed; and below the
    destination there is nothing that does not come from a listed
    entry. *)
Theorem copy_listed_files fs l pre dst create :
  well_formed fs →
  commonpath l = Ok pre → tail (PathOf pre) ≠ [] →
  NoDup (PathOf <$> l) →
  Forall (λ p, below (PathOf pre) p = true ∧ is_Some (fs !! p)
               ∧ contains pre
                   (String "/" (String.concat "/" (relative_to (PathOf pre) p))) = false)
         (PathOf <$> l) →
  is_dir fs (PathOf dst) = true → tail (PathOf dst) ≠ [] →
  suffix (PathOf dst) = EmptyString →
  unrelated (PathOf pre) (PathOf dst) →
  glob_all fs (PathOf dst) = [] →
  ∃ fs', copy_files_to_directory (SrcList l) dst create fs = (fs', Ok tt)
       ∧ (∀ p b, p ∈ PathOf <$> l → fs !! p = Some (File b) →
            fs' !! rebase (PathOf pre) (PathOf dst) p = Some (File b))
       ∧ (∀ q, below (PathOf dst) q = false → fs' !! q = fs !! q)
       ∧ (∀ q n, below (PathOf dst) q = true → fs' !! q = Some n →
            ∃ p, p ∈ PathOf <$> l
                 ∧ ((q = rebase (PathOf pre) (PathOf dst) p ∧ fs !! p = Some n)
                    ∨ (n = Dir ∧ below q (rebase (PathOf pre) (PathOf dst) p) = true))).
Proof.
  intros Hwf Hc Ht Hnd Hentries He Het Hsuf Hun Hempty.
  destruct (commonpath_text l pre Hc Ht) as [Hclean Hstr].
  set (d := PathOf pre) in *. set (e := PathOf dst) in *.
  assert (resolve_source (SrcList l) fs = (fs, Ok (Some (pre, PathOf <$> l), EmptyString)))
    as Hr by (simpl; by rewrite Hc).
  rewrite (copy_resolved _ _ _ _ _ _ _ Hr). fold e.
  rewrite (bind_ok _ _ _ _ _ (check_destination_ok fs e create Hwf He Hsuf)).
  assert (Forall (λ p, below d p = true ∧ is_Some (fs !! p)
                       ∧ dst_file_of pre e p = rebase d e p) (PathOf <$> l)) as Hent.
  { apply Forall_forall. intros p Hp.
    pose proof (proj1 (Forall_forall _ _) Hentries p Hp) as (Hb & Hs & Hno).
    split_and!; [done|done|]. rewrite <-Hstr.
    apply dst_file_of_rebase; try done.
    - apply PathOf_clean.
    - apply list_elem_of_fmap in Hp as (x & -> & _). apply clean_relative, PathOf_clean.
    - by rewrite Hstr. }
  destruct (loop_copied fs d e pre Hwf Hun He Het (glob_all_empty _ _ Hempty)
              (PathOf <$> l) [] fs Hnd Hent)
    as (fs' & Hrun & Hframe & Hnew & Hfiles & Hdirs).
  - constructor.
  - intros p _ Hp. by apply elem_of_nil in Hp.
  - apply start_copied. by apply glob_all_empty.
  - exists fs'. split; [done|]. rewrite app_nil_r in *.
    assert (∀ p, p ∈ rev (PathOf <$> l) ↔ p ∈ PathOf <$> l) as Hmem.
    { intros p. by rewrite !list_elem_of_In, <-in_rev. }
    split_and!.
    + intros p b Hp Hb. apply Hfiles; [|done]. by apply Hmem.
    + done.
    + intros q n Hq Hn. destruct (Hnew q n Hq Hn) as (p & Hp & H).
      apply Hmem in Hp. exists p. split; [done|].
      destruct H as [(-> & b & Hb & ->)|(-> & Hbt)]; [by left|by right].
Qed.

End listed.

(** * The rest of the module at sample inputs *)

Ltac by_deciding := apply (bool_decide_unpack _); vm_compute; exact I.

Lemma tree_well_formed : well_formed Examples.tree.
Proof. apply well_formed_check_ok. vm_compute. reflexivity. Qed.

Lemma make_directory_makes_lineage_witness :
  existsb (is_file Examples.tree) (lineage (PathOf "E/x/y")) = false
  ∧ ∃ fs', make_directory (PathOf "E/x/y") Examples.tree = (fs', Ok tt)
         ∧ fs' !! PathOf "E/x" = Some Dir
         ∧ fs' !! PathOf "E/x/y" = Some Dir
         ∧ fs' !! PathOf "D/a.txt" = Some (File "A").
Proof.
  assert (existsb (is_file Examples.tree) (lineage (PathOf "E/x/y")) = false) as Hno
    by (vm_compute; reflexivity).
  split; [exact Hno|].
  destruct (make_directory_makes_lineage Examples.tree (PathOf "E/x/y") Hno)
    as (fs' & Hrun & _ & Hdirs & Hold & _).
  exists fs'. split; [exact Hrun|]. repeat apply conj.
  - apply Hdirs. by_deciding.
  - apply Hdirs. by_deciding.
  - apply Hold. vm_compute. reflexivity.
Defined.

Lemma make_directory_blocked_by_file_witness :
  existsb (is_file Examples.tree) (lineage (PathOf "D/a.txt/z")) = true
  ∧ make_directory (PathOf "D/a.txt/z") Examples.tree =
      (Examples.tree, Raise (NotADirectoryError "D/a.txt/z"))
  ∧ existsb (is_file Examples.tree) (lineage (PathOf "D/a.txt")) = true
  ∧ make_directory (PathOf "D/a.txt") Examples.tree =
      (Examples.tree, Raise (FileExistsError "D/a.txt")).
Proof.
  assert (existsb (is_file Examples.tree) (lineage (PathOf "D/a.txt/z")) = true) as H1
    by (vm_compute; reflexivity).
  assert (existsb (is_file Examples.tree) (lineage (PathOf "D/a.txt")) = true) as H2
    by (vm_compute; reflexivity).
  split; [exact H1|]. split; [|split; [exact H2|]].
  - exact (make_directory_blocked_by_file Examples.tree (PathOf "D/a.txt/z") H1).
  - exact (make_directory_blocked_by_file Examples.tree (PathOf "D/a.txt") H2).
Defined.

Lemma make_directory_order_witness :
  ∃ fs1 fs2 fs',
    make_directory (PathOf "E/x") Examples.tree = (fs1, Ok tt)
    ∧ make_directory (PathOf "D/sub/y/z") Examples.tree = (fs2, Ok tt)
    ∧ make_directory (PathOf "D/sub/y/z") fs1 = (fs', Ok tt)
    ∧ make_directory (PathOf "E/x") fs2 = (fs', Ok tt).
Proof.
  destruct (mkdir_parents_effect Examples.tree (PathOf "E/x")) as (fs1 & H1 & _);
    [vm_compute; reflexivity|].
  destruct (mkdir_parents_effect Examples.tree (PathOf "D/sub/y/z")) as (fs2 & H2 & _);
    [vm_compute; reflexivity|].
  destruct (make_directory_order Examples.tree _ _ fs1 fs2 H1 H2) as (fs' & H3 & H4).
  exists fs1, fs2, fs'. repeat apply conj; assumption.
Defined.

Lemma copy_file_creates_and_writes_witness :
  node_at Examples.tree (PathOf "D/a.txt") = Some (File "A")
  ∧ exists_ Examples.tree (PathOf "new") = false
  ∧ ∃ fs', copy_file (PathOf "D/a.txt") "new/dir/c.txt" true Examples.tree = (fs', Ok tt)
         ∧ fs' !! PathOf "new/dir/c.txt" = Some (File "A")
         ∧ fs' !! PathOf "new/dir" = Some Dir
         ∧ fs' !! PathOf "D/a.txt" = Some (File "A").
Proof.
  assert (node_at Examples.tree (PathOf "D/a.txt") = Some (File "A")) as Hsrc
    by (vm_compute; reflexivity).
  split; [exact Hsrc|]. split; [vm_compute; reflexivity|].
  destruct (copy_file_creates_and_writes Examples.tree (PathOf "D/a.txt") "new/dir/c.txt" "A" Hsrc)
    as (fs' & Hrun & Hdst & _ & Hdirs & _ & Hold).
  - vm_compute. reflexivity.
  - vm_compute. discriminate.
  - vm_compute. reflexivity.
  - exists fs'. split; [exact Hrun|]. repeat apply conj.
    + exact Hdst.
    + apply Hdirs. by_deciding.
    + apply Hold; [vm_compute; discriminate|vm_compute; reflexivity].
Defined.

Lemma copy_file_into_directory_witness :
  node_at Examples.tree (PathOf "D/a.txt") = Some (File "A")
  ∧ is_dir Examples.tree (PathOf "E") = true
  ∧ copy_file (PathOf "D/a.txt") "E" false Examples.tree =
      (<[PathOf "E/a.txt" := File "A"]> Examples.tree, Ok tt).
Proof.
  assert (node_at Examples.tree (PathOf "D/a.txt") = Some (File "A")) as Hsrc
    by (vm_compute; reflexivity).
  assert (is_dir Examples.tree (PathOf "E") = true) as Hdst by (vm_compute; reflexivity).
  split; [exact Hsrc|]. split; [exact Hdst|].
  apply (copy_file_into_directory Examples.tree (PathOf "D/a.txt") "E" "A" Hsrc Hdst).
  - vm_compute. reflexivity.
  - vm_compute. discriminate.
Defined.


Lemma copy_file_then_remove_file_witness :
  node_at Examples.tree (PathOf "D/a.txt") = Some (File "A")
  ∧ exists_ Examples.tree (PathOf "E/c.txt") = false
  ∧ is_dir Examples.tree (PathOf "E") = true
  ∧ (copy_file (PathOf "D/a.txt") "E/c.txt" false;; remove_file (PathOf "E/c.txt")) Examples.tree
      = (Examples.tree, Ok tt).
Proof.
  assert (node_at Examples.tree (PathOf "D/a.txt") = Some (File "A")) as Hsrc
    by (vm_compute; reflexivity).
  split; [exact Hsrc|]. split; [vm_compute; reflexivity|].
  split; [vm_compute; reflexivity|].
  apply (copy_file_then_remove_file Examples.tree (PathOf "D/a.txt") "E/c.txt" "A"
           tree_well_formed Hsrc).
  - vm_compute. reflexivity.
  - vm_compute. reflexivity.
Defined.

Lemma remove_directory_removes_subtree_witness :
  is_dir Examples.tree (PathOf "D") = true
  ∧ ∃ fs', remove_directory (PathOf "D") Examples.tree = (fs', Removed)
         ∧ fs' !! PathOf "D" = None
         ∧ fs' !! PathOf "D/sub/b.txt" = None
         ∧ fs' !! PathOf "E" = Some Dir.
Proof.
  assert (is_dir Examples.tree (PathOf "D") = true) as Hd by (vm_compute; reflexivity).
  split; [exact Hd|].
  destruct (remove_directory_removes_subtree Examples.tree (PathOf "D") Hd) as (fs' & Hrun & Hfs).
  - vm_compute. discriminate.
  - vm_compute. reflexivity.
  - exists fs'. split; [exact Hrun|].
    repeat apply conj; rewrite Hfs; vm_compute; reflexivity.
Defined.

Lemma remove_directory_refuses_witness :
  is_dir Examples.tree (PathOf "D/a.txt") = false
  ∧ is_dir Examples.tree (PathOf "nope") = false
  ∧ (∃ e, remove_directory (PathOf "D/a.txt") Examples.tree = (Examples.tree, Failed e))
  ∧ (∃ e, remove_directory (PathOf "nope") Examples.tree = (Examples.tree, Failed e)).
Proof.
  assert (is_dir Examples.tree (PathOf "D/a.txt") = false) as H1 by (vm_compute; reflexivity).
  assert (is_dir Examples.tree (PathOf "nope") = false) as H2 by (vm_compute; reflexivity).
  split; [exact H1|]. split; [exact H2|]. split.
  - exact (remove_directory_refuses Examples.tree (PathOf "D/a.txt") H1).
  - exact (remove_directory_refuses Examples.tree (PathOf "nope") H2).
Defined.

Lemma remove_directory_then_make_directory_witness :
  is_dir Examples.tree (PathOf "D") = true
  ∧ ∃ fs1 fs', remove_directory (PathOf "D") Examples.tree = (fs1, Removed)
             ∧ make_directory (PathOf "D") fs1 = (fs', Ok tt)
             ∧ fs' !! PathOf "D" = Some Dir
             ∧ fs' !! PathOf "D/a.txt" = None
             ∧ fs' !! PathOf "D/sub" = None
             ∧ fs' !! PathOf "E" = Some Dir.
Proof.
  assert (is_dir Examples.tree (PathOf "D") = true) as Hd by (vm_compute; reflexivity).
  split; [exact Hd|].
  destruct (remove_directory_then_make_directory Examples.tree (PathOf "D") tree_well_formed Hd)
    as (fs1 & fs' & H1 & H2 & Hfs); [vm_compute; discriminate|].
  exists fs1, fs'. split; [exact H1|]. split; [exact H2|].
  repeat apply conj; rewrite Hfs; vm_compute; reflexivity.
Defined.




Lemma create_directory_irrelevant_when_present_witness :
  is_dir Examples.tree (PathOf "E") = true
  ∧ copy_files_to_directory (SrcPath "D") "E" true Examples.tree =
      copy_files_to_directory (SrcPath "D") "E" false Examples.tree.
Proof.
  assert (is_dir Examples.tree (PathOf "E") = true) as He by (vm_compute; reflexivity).
  split; [exact He|].
  exact (create_directory_irrelevant_when_present Examples.tree (SrcPath "D") "E"
           tree_well_formed He).
Defined.

Lemma copy_single_file_witness :
  node_at Examples.tree (PathOf "D/sub/b.txt") = Some (File "B")
  ∧ is_dir Examples.tree (PathOf "E") = true
  ∧ copy_files_to_directory (SrcPath "D/sub/b.txt") "E" false Examples.tree =
      (<[PathOf "E/b.txt" := File "B"]> Examples.tree, Ok tt).
Proof.
  assert (node_at Examples.tree (PathOf "D/sub/b.txt") = Some (File "B")) as Hsrc
    by (vm_compute; reflexivity).
  assert (is_dir Examples.tree (PathOf "E") = true) as He by (vm_compute; reflexivity).
  split; [exact Hsrc|]. split; [exact He|].
  apply (copy_single_file Examples.tree "D/sub/b.txt" "E" false "B" tree_well_formed Hsrc).
  - vm_compute. discriminate.
  - exact He.
  - vm_compute. discriminate.
  - vm_compute. reflexivity.
  - vm_compute. reflexivity.
  - vm_compute. reflexivity.
  - vm_compute. discriminate.
Defined.

Lemma copy_tree_into_empty_directory_witness :
  is_dir Examples.tree (PathOf "D") = true
  ∧ is_dir Examples.tree (PathOf "E") = true
  ∧ glob_all Examples.tree (PathOf "E") = []
  ∧ ∃ fs', copy_files_to_directory (SrcPath "D") "E" false Examples.tree = (fs', Ok tt)
         ∧ fs' !! PathOf "E/a.txt" = Some (File "A")
         ∧ fs' !! PathOf "E/sub/b.txt" = Some (File "B")
         ∧ fs' !! PathOf "E/sub" = Some Dir
         ∧ fs' !! PathOf "D/sub/b.txt" = Some (File "B").
Proof.
  assert (is_dir Examples.tree (PathOf "D") = true) as Hd by (vm_compute; reflexivity).
  assert (is_dir Examples.tree (PathOf "E") = true) as He by (vm_compute; reflexivity).
  assert (glob_all Examples.tree (PathOf "E") = []) as Hempty by (vm_compute; reflexivity).
  split; [exact Hd|]. split; [exact He|]. split; [exact Hempty|].
  destruct (copy_tree_into_empty_directory Examples.tree "D" "E" false tree_well_formed Hd)
    as (fs' & Hrun & Hfiles & Hdirs & Hout & _).
  - vm_compute. discriminate.
  - exact He.
  - vm_compute. discriminate.
  - vm_compute. reflexivity.
  - by_deciding.
  - exact Hempty.
  - by_deciding.
  - exists fs'. split; [exact Hrun|]. repeat apply conj.
    + apply (Hfiles (PathOf "D/a.txt") "A"); vm_compute; reflexivity.
    + apply (Hfiles (PathOf "D/sub/b.txt") "B"); vm_compute; reflexivity.
    + apply (Hdirs (PathOf "D/sub/b.txt") (PathOf "E/sub")).
      * vm_compute. reflexivity.
      * exists (File "B"). vm_compute. reflexivity.
      * vm_compute. reflexivity.
      * vm_compute. reflexivity.
    + rewrite Hout; vm_compute; reflexivity.
Defined.

Lemma copy_file_onto_itself_witness :
  node_at Examples.tree (PathOf "D/sub/b.txt") = Some (File "B")
  ∧ PathOf "D/sub" = parent (PathOf "D/sub/b.txt")
  ∧ copy_files_to_directory (SrcPath "D/sub/b.txt") "D/sub" false Examples.tree =
      (Examples.tree, Raise (SameFileError "D/sub/b.txt")).
Proof.
  assert (node_at Examples.tree (PathOf "D/sub/b.txt") = Some (File "B")) as Hsrc
    by (vm_compute; reflexivity).
  split; [exact Hsrc|]. split; [vm_compute; reflexivity|].
  apply (copy_file_onto_itself Examples.tree "D/sub/b.txt" "D/sub" false "B" tree_well_formed Hsrc).
  - vm_compute. reflexivity.
  - vm_compute. discriminate.
  - vm_compute. reflexivity.
  - vm_compute. reflexivity.
Defined.

Lemma copy_listed_files_witness :
  commonpath ["D/a.txt"; "D/sub/b.txt"]%string = Ok "D"%string
  ∧ is_dir Examples.tree (PathOf "E") = true
  ∧ glob_all Examples.tree (PathOf "E") = []
  ∧ ∃ fs', copy_files_to_directory (SrcList ["D/a.txt"; "D/sub/b.txt"]%string)
             "E" false Examples.tree = (fs', Ok tt)
         ∧ fs' !! PathOf "E/a.txt" = Some (File "A")
         ∧ fs' !! PathOf "E/sub/b.txt" = Some (File "B")
         ∧ fs' !! PathOf "D/a.txt" = Some (File "A").
Proof.
  assert (commonpath ["D/a.txt"; "D/sub/b.txt"]%string = Ok "D"%string) as Hc
    by (vm_compute; reflexivity).
  assert (is_dir Examples.tree (PathOf "E") = true) as He by (vm_compute; reflexivity).
  assert (glob_all Examples.tree (PathOf "E") = []) as Hempty by (vm_compute; reflexivity).
  split; [exact Hc|]. split; [exact He|]. split; [exact Hempty|].
  destruct (copy_listed_files Examples.tree ["D/a.txt"; "D/sub/b.txt"]%string "D" "E" false
              tree_well_formed Hc)
    as (fs' & Hrun & Hfiles & Hout & _).
  - vm_compute. discriminate.
  - by_deciding.
  - by_deciding.
  - exact He.
  - vm_compute. discriminate.
  - vm_compute. reflexivity.
  - by_deciding.
  - exact Hempty.
  - exists fs'. split; [exact Hrun|]. repeat apply conj.
    + apply (Hfiles (PathOf "D/a.txt") "A");
        [by_deciding|vm_compute; reflexivity].
    + apply (Hfiles (PathOf "D/sub/b.txt") "B");
        [by_deciding|vm_compute; reflexivity].
    + rewrite Hout; vm_compute; reflexivity.
Defined.
